(** * discord-pin-archiver: settings store, duplicate-event guard and
      pin relocation handler of [pin_archiver.py]

    The table [pin_archive_settings] is a finite map from the primary key
    [guild_id] to the two other columns, kept as the raw integers SQLite
    stores.  Each SQL statement of the module is a function on that map
    returning the rows it yields ([RETURNING *] / [SELECT *]).  Exceptions
    are values of [Result]; the bot is a record of its database connection
    and its guard deque; calls to the chat platform are answered by a
    [Platform] record and recorded in a trace of [Event]s.

    Identifiers are Python integers, here [Z]; the identifiers the platform
    hands out fit SQLite's INTEGER type, so binding them never overflows.
    The guard block of the handler contains no [await], so it runs without
    interleaving; the handler as a whole is taken as one step of the bot. *)

From Stdlib Require Import ZArith List Bool Lia String.
From stdpp Require Import base option list gmap strings.

Local Open Scope Z_scope.

(** ** Exceptions *)

Inductive exn : Type :=
| ValueError
| IndexError
| AssertionError
| AttributeError
| HTTPException.

Inductive Result (A : Type) : Type :=
| Ok (a : A)
| Raise (e : exn).

Arguments Ok {A} a.
Arguments Raise {A} e.

Definition bind {A B : Type} (r : Result A) (k : A -> Result B) : Result B :=
  match r with
  | Ok a => k a
  | Raise e => Raise e
  end.

Notation "'let!' x ':=' r 'in' k" := (bind r (fun x => k))
  (at level 10, x name, r at level 100, k at level 200).

(** A list comprehension whose element expression may raise. *)
Fixpoint comprehension {A B : Type} (f : A -> Result B) (l : list A)
  : Result (list B) :=
  match l with
  | [] => Ok []
  | a :: l' =>
      let! b := f a in
      let! bs := comprehension f l' in
      Ok (b :: bs)
  end.

(** ** PinMode and PinArchiveLocation *)

Inductive PinMode : Type :=
| oldest
| newest.

Definition value (m : PinMode) : Z :=
  match m with
  | oldest => 1
  | newest => 2
  end.

(** [PinMode(v)]: enum lookup by value, [ValueError] for any other integer. *)
Definition PinMode_of (v : Z) : Result PinMode :=
  if v =? 1 then Ok oldest
  else if v =? 2 then Ok newest
  else Raise ValueError.

Record PinArchiveLocation : Type := mkLocation {
  guild_id : Z;
  channel_id : Z;
  pin_mode : PinMode
}.

Definition Row : Type := Z * Z * Z.

Definition from_row (row : Row) : Result PinArchiveLocation :=
  let '(r0, r1, r2) := row in
  let! m := PinMode_of r2 in Ok (mkLocation r0 r1 m).

Definition to_row (self : PinArchiveLocation) : Row :=
  (guild_id self, channel_id self, value (pin_mode self)).

(** ** The table and the SQL statements *)

(** [guild_id INTEGER PRIMARY KEY] is the key; the value is
    [(channel_id, pin_mode)], both [INTEGER NOT NULL]. *)
Abbreviation Table := (gmap Z (Z * Z)).

(** A statement with its parameters bound: the rows it yields and the
    table it leaves. *)
Definition Statement : Type := Table -> list Row * Table.

(** SQLite's [=] and [AND] on non-NULL integers: the result is 0 or 1, and
    an operand of [AND] is true when it is not 0. *)
Definition sql_eq (a b : Z) : Z := if a =? b then 1 else 0.
Definition sql_and (a b : Z) : Z :=
  if (a =? 0) || (b =? 0) then 0 else 1.

Definition SELECT_BY_GUILD_STATEMENT (g : Z) : Statement := fun t =>
  match t !! g with
  | Some (c, m) => ([(g, c, m)], t)
  | None => ([], t)
  end.

(** [INSERT ... ON CONFLICT (guild_id) DO UPDATE SET] both columns to the
    excluded values, [RETURNING *]. *)
Definition UPSERT_ARCHIVE_STATEMENT (row : Row) : Statement := fun t =>
  let '(g, c, m) := row in
  ([(g, c, m)], <[g := (c, m)]> t).

Definition UPDATE_MODE_STATEMENT (m g : Z) : Statement := fun t =>
  match t !! g with
  | Some (c, _) => ([(g, c, m)], <[g := (c, m)]> t)
  | None => ([], t)
  end.

Definition UPDATE_CHANNEL_STATEMENT (c g : Z) : Statement := fun t =>
  match t !! g with
  | Some (_, m) => ([(g, c, m)], <[g := (c, m)]> t)
  | None => ([], t)
  end.

(** [SET channel_id = ? and pin_mode = ?]: one assignment, whose right-hand
    side is the expression [? AND (pin_mode = ?)] over the row's current
    [pin_mode]; the column [pin_mode] is not assigned. *)
Definition UPDATE_CHANNEL_AND_MODE_STATEMENT (c m g : Z) : Statement := fun t =>
  match t !! g with
  | Some (_, pm) =>
      let c' := sql_and c (sql_eq pm m) in
      ([(g, c', pm)], <[g := (c', pm)]> t)
  | None => ([], t)
  end.

Definition DROP_ARCHIVE_STATEMENT (g : Z) : Statement := fun t =>
  ([], delete g t).

(** ** Database helpers

    [with conn:] opens a transaction that is committed when the block ends
    and rolled back when it raises. *)

Definition _query (conn : Table) (stmt : Statement)
  : Result (list PinArchiveLocation) * Table :=
  let '(rows, conn') := stmt conn in
  match comprehension from_row rows with
  | Ok locations => (Ok locations, conn')
  | Raise e => (Raise e, conn)
  end.

Definition _upsert (conn : Table) (location : PinArchiveLocation)
  : Result (list PinArchiveLocation) * Table :=
  let '(rows, conn') := UPSERT_ARCHIVE_STATEMENT (to_row location) conn in
  match comprehension from_row rows with
  | Ok locations => (Ok locations, conn')
  | Raise e => (Raise e, conn)
  end.

Definition _drop (conn : Table) (guild_id : Z) : Result unit * Table :=
  let '(_, conn') := DROP_ARCHIVE_STATEMENT guild_id conn in
  (Ok tt, conn').

(** [locations[0] if locations else None] *)
Definition first_or_None {A : Type} (locations : list A) : option A :=
  match locations with
  | [] => None
  | x :: _ => Some x
  end.

(** ** The chat platform *)

Module TextChannel.
Record t : Type := mk { id : Z }.
End TextChannel.

(** The channel an event is about: [channel.id] and [channel.guild.id]. *)
Module Channel.
Record t : Type := mk { id : Z; guild_id : Z }.
End Channel.

Module Message.
Record t : Type := mk {
  id : Z;
  content : string;
  attachments : list string
}.
End Message.

Module Embed.
Record t : Type := mk {
  description : string;
  image : option string
}.
End Embed.

(** What [guild.get_channel] may hand back. *)
Inductive GuildChannel : Type :=
| IsTextChannel (c : TextChannel.t)
| IsOtherChannel.

(** The platform's answers to the calls the handler makes. *)
Record Platform : Type := mkPlatform {
  pins : Channel.t -> Result (list Message.t);
  get_channel : Z -> Z -> option GuildChannel;
  unpin : Message.t -> Result unit;
  send : TextChannel.t -> Embed.t -> Result unit
}.

Inductive Event : Type :=
| EvPins (channel : Channel.t)
| EvUnpin (pin : Message.t)
| EvSend (archive_channel : TextChannel.t) (embed : Embed.t)
| EvLogException
| EvLogInfo.

Definition create_pin_embed (message : Message.t) : Embed.t :=
  Embed.mk (Message.content message) (head (Message.attachments message)).

(** ** Python sequences *)

(** [l[i]] with Python's negative indices; [IndexError] out of range. *)
Definition getitem {A : Type} (l : list A) (i : Z) : Result A :=
  let n := Z.of_nat (length l) in
  let j := if i <? 0 then i + n else i in
  if (j <? 0) || (n <=? j) then Raise IndexError
  else match l !! Z.to_nat j with
       | Some x => Ok x
       | None => Raise IndexError
       end.

(** [collections.deque]: the right end is the end of the list. *)
Definition deque_append (d : list Z) (x : Z) : list Z := d ++ [x].

Definition deque_pop (d : list Z) : Result (Z * list Z) :=
  match rev d with
  | [] => Raise IndexError
  | x :: r => Ok (x, rev r)
  end.

(** ** The bot *)

Record Bot : Type := mkBot {
  db_connection : Table;
  _guard_stack : list Z
}.

(** [__init__]: a connection to whatever the database file holds and an
    empty guard deque. *)
Definition PinArchiverBot_init (stored : Table) : Bot := mkBot stored [].

Definition with_connection (self : Bot) (conn : Table) : Bot :=
  mkBot conn (_guard_stack self).

Definition upsert_archive_channel (self : Bot) (guild_id channel_id : Z)
    (pin_mode : PinMode) : Result (option PinArchiveLocation) * Bot :=
  let new_location := mkLocation guild_id channel_id pin_mode in
  let '(r, conn) := _upsert (db_connection self) new_location in
  (let! locations := r in Ok (first_or_None locations),
   with_connection self conn).

Definition get_archive_channel (self : Bot) (guild_id : Z)
  : Result (option PinArchiveLocation) * Bot :=
  let '(r, conn) :=
    _query (db_connection self) (SELECT_BY_GUILD_STATEMENT guild_id) in
  (let! locations := r in Ok (first_or_None locations),
   with_connection self conn).

Definition update_archive_channel (self : Bot) (guild_id : Z)
    (channel : option TextChannel.t) (pin_mode : option PinMode)
  : Result (option PinArchiveLocation) * Bot :=
  let run stmt :=
    let '(r, conn) := _query (db_connection self) stmt in
    (let! locations := r in Ok (first_or_None locations),
     with_connection self conn) in
  match channel, pin_mode with
  | Some channel, Some pin_mode =>
      run (UPDATE_CHANNEL_AND_MODE_STATEMENT
             (TextChannel.id channel) (value pin_mode) guild_id)
  | Some channel, None =>
      run (UPDATE_CHANNEL_STATEMENT (TextChannel.id channel) guild_id)
  | None, Some pin_mode =>
      run (UPDATE_MODE_STATEMENT (value pin_mode) guild_id)
  | None, None => (Ok None, self)
  end.

(** ** Duplicate-event guard and relocation *)

(** [current_pins[-1] if (location.pin_mode is PinMode.oldest) else
    current_pins[0]] *)
Definition select_pin (location : PinArchiveLocation)
    (current_pins : list Message.t) : Result Message.t :=
  match pin_mode location with
  | oldest => getitem current_pins (-1)
  | newest => getitem current_pins 0
  end.

(** The [try: pop / except IndexError: append / else: compare] block.
    The boolean is [true] when the block returns from the handler. *)
Definition guard (stack : list Z) (pin_id : Z) : bool * list Z :=
  match deque_pop stack with
  | Raise _ => (false, deque_append stack pin_id)
  | Ok (old_pin, stack') => (old_pin =? pin_id, stack')
  end.

(** How a block of the handler ends. *)
Inductive Flow : Type :=
| Returns
| FallsThrough
| Propagates (e : exn).

(** [except (IndexError, discord.HTTPException) as err: log.exception] *)
Definition except_relocate (e : exn) (stack : list Z) (trace : list Event)
  : Flow * list Z * list Event :=
  match e with
  | IndexError | HTTPException => (FallsThrough, stack, trace ++ [EvLogException])
  | _ => (Propagates e, stack, trace)
  end.

(** What follows the guard: unpin, build the embed, send it. *)
Definition archive_pin (platform : Platform) (stack : list Z)
    (archive_channel : TextChannel.t) (pin : Message.t)
  : Flow * list Z * list Event :=
  match unpin platform pin with
  | Raise e => except_relocate e stack [EvUnpin pin]
  | Ok _ =>
      let embed := create_pin_embed pin in
      match send platform archive_channel embed with
      | Raise e =>
          except_relocate e stack [EvUnpin pin; EvSend archive_channel embed]
      | Ok _ =>
          (FallsThrough, stack, [EvUnpin pin; EvSend archive_channel embed])
      end
  end.

(** The guard and what follows it, for a selected pin. *)
Definition relocate_pin (platform : Platform) (stack : list Z)
    (archive_channel : TextChannel.t) (pin : Message.t)
  : Flow * list Z * list Event :=
  let '(duplicate, stack') := guard stack (Message.id pin) in
  if duplicate then (Returns, stack', [])
  else archive_pin platform stack' archive_channel pin.

(** The inner [try] block. *)
Definition relocate (platform : Platform) (stack : list Z)
    (location : PinArchiveLocation) (archive_channel : TextChannel.t)
    (current_pins : list Message.t) : Flow * list Z * list Event :=
  match select_pin location current_pins with
  | Raise e => except_relocate e stack []
  | Ok pin => relocate_pin platform stack archive_channel pin
  end.

(** The end of the handler after the inner [try] block: [log.info] unless
    the block returned or raised. *)
Definition finish (self : Bot) (fetched : list Event)
    (r : Flow * list Z * list Event) : Result unit * Bot * list Event :=
  let '(flow, stack, trace) := r in
  let self' := mkBot (db_connection self) stack in
  match flow with
  | Returns => (Ok tt, self', fetched ++ trace)
  | FallsThrough => (Ok tt, self', fetched ++ trace ++ [EvLogInfo])
  | Propagates e => (Raise e, self', fetched ++ trace)
  end.

Definition on_guild_channel_pins_update (platform : Platform) (self : Bot)
    (channel : Channel.t) : Result unit * Bot * list Event :=
  match get_archive_channel self (Channel.guild_id channel) with
  | (Raise e, self) => (Raise e, self, [])
  | (Ok None, self) => (Ok tt, self, [])
  | (Ok (Some location), self) =>
      match pins platform channel with
      | Raise AttributeError | Raise HTTPException =>
          (Ok tt, self, [EvPins channel; EvLogException; EvLogInfo])
      | Raise e => (Raise e, self, [EvPins channel])
      | Ok current_pins =>
          if Z.of_nat (length current_pins) <? 49
          then (Ok tt, self, [EvPins channel])
          else
            match get_channel platform (Channel.guild_id channel)
                    (channel_id location) with
            | Some (IsTextChannel archive_channel) =>
                finish self [EvPins channel]
                  (relocate platform (_guard_stack self) location
                     archive_channel current_pins)
            | _ => (Raise AssertionError, self, [EvPins channel])
            end
      end
  end.

(** ** Commands *)

Inductive Reply : Type :=
| ReplyEmbed (title : string) (location : PinArchiveLocation)
| ReplyText (text : string)
| NoReply.

Definition reply_location (title : string)
    (r : Result (option PinArchiveLocation)) : Result Reply :=
  let! location := r in
  Ok (match location with
      | Some location => ReplyEmbed title location
      | None => NoReply
      end).

Definition pin_setup (self : Bot) (guild : Z)
    (archive_channel : TextChannel.t) (mode : PinMode) : Result Reply * Bot :=
  let '(r, self) :=
    upsert_archive_channel self guild (TextChannel.id archive_channel) mode in
  (reply_location "Current Pin Archive Settings" r, self).

Definition pin_update (self : Bot) (guild : Z)
    (archive_channel : option TextChannel.t) (mode : option PinMode)
  : Result Reply * Bot :=
  match archive_channel, mode with
  | None, None => (Ok (ReplyText "No new settings put in: No changes made."), self)
  | _, _ =>
      let '(r, self) := update_archive_channel self guild archive_channel mode in
      (reply_location "Updated Pin Archive Settings" r, self)
  end.

Definition pin_current (self : Bot) (guild : Z) : Result Reply * Bot :=
  let '(r, self) := get_archive_channel self guild in
  (let! location := r in
   Ok (match location with
       | Some location => ReplyEmbed "Current Pin Archive Settings" location
       | None => ReplyText "The pin archive has not be set up for this server."
       end),
   self).

Definition pin_disable (self : Bot) (guild : Z) : Result Reply * Bot :=
  let '(r, conn) := _drop (db_connection self) guild in
  (let! _u := r in
   Ok (ReplyText
         "The bot will no longer update the pin archive. To re-enable, use `/pin setup`."),
   with_connection self conn).

(** ** Runs of the bot *)

Inductive Invocation : Type :=
| PinsUpdate (platform : Platform) (channel : Channel.t)
| Setup (guild : Z) (archive_channel : TextChannel.t) (mode : PinMode)
| Update (guild : Z) (archive_channel : option TextChannel.t)
    (mode : option PinMode)
| Current (guild : Z)
| Disable (guild : Z).

Definition invoke (self : Bot) (i : Invocation) : Bot :=
  match i with
  | PinsUpdate platform channel =>
      snd (fst (on_guild_channel_pins_update platform self channel))
  | Setup guild archive_channel mode =>
      snd (pin_setup self guild archive_channel mode)
  | Update guild archive_channel mode =>
      snd (pin_update self guild archive_channel mode)
  | Current guild => snd (pin_current self guild)
  | Disable guild => snd (pin_disable self guild)
  end.

Definition run (self : Bot) (invocations : list Invocation) : Bot :=
  fold_left invoke invocations self.

(** The guard block alone, over a sequence of candidate identifiers: the
    verdicts ([true] = suppressed) and the deque left behind. *)
Fixpoint guard_run (stack : list Z) (candidates : list Z)
  : list bool * list Z :=
  match candidates with
  | [] => ([], stack)
  | pin_id :: rest =>
      let '(duplicate, stack') := guard stack pin_id in
      let '(verdicts, final) := guard_run stack' rest in
      (duplicate :: verdicts, final)
  end.

(** The handler, run on connection [conn], gets as far as the guard with
    [pin] as its candidate and [archive_channel] as the destination: the
    guild has a row, the pins are fetched, there are at least 49 of them,
    the stored channel is a text channel, and [pin] is the selected one. *)
Definition reaches_guard (platform : Platform) (conn : Table)
    (channel : Channel.t) (archive_channel : TextChannel.t)
    (pin : Message.t) : Prop :=
  exists (c : Z) (m : PinMode) (current_pins : list Message.t),
    conn !! Channel.guild_id channel = Some (c, value m) /\
    pins platform channel = Ok current_pins /\
    (49 <= length current_pins)%nat /\
    get_channel platform (Channel.guild_id channel) c
      = Some (IsTextChannel archive_channel) /\
    select_pin (mkLocation (Channel.guild_id channel) c m) current_pins
      = Ok pin.

(** ** A small world on which the definitions are run *)

(** Forty-nine pinned messages with identifiers [start], ..., [start + 48],
    newest first as the platform lists them. *)
Definition sample_pins (start : nat) : list Message.t :=
  map (fun i => Message.mk (Z.of_nat i) "" []) (seq start 49).

(** A platform on which every call succeeds and every channel identifier
    names a text channel. *)
Definition sample_platform (current_pins : list Message.t) : Platform :=
  mkPlatform (fun _ => Ok current_pins)
             (fun _ c => Some (IsTextChannel (TextChannel.mk c)))
             (fun _ => Ok tt)
             (fun _ _ => Ok tt).

(** Guild 1 archives to channel 100, oldest pin first. *)
Definition sample_table : Table := {[ 1 := (100, 1) ]}.

Definition sample_channel : Channel.t := Channel.mk 5 1.

(** Events that touch no message. *)
Definition quiet (channel : Channel.t) (ev : Event) : Prop :=
  ev = EvPins channel \/ ev = EvLogException \/ ev = EvLogInfo.

(** ** Stored modes

    Every [pin_mode] column of the table holds the value of a [PinMode]. *)
Definition valid_table (t : Table) : Prop :=
  forall (g c m : Z), t !! g = Some (c, m) -> m = 1 \/ m = 2.

(** ** Process bootstrap

    The operating system as the module sees it: the name [getpass.getuser]
    returns and the environment.  The keyring maps a service name and a
    user name to a password. *)

Record Os : Type := mkOs {
  getuser : string;
  environ : gmap string string
}.

Abbreviation Keyring := (gmap (string * string) string).

(** Truth value of a Python [str]: false for the empty string only. *)
Definition truthy (s : string) : bool := negb (String.eqb s "").

(** Truth value of a [str | None]. *)
Definition truthy_opt (o : option string) : bool :=
  match o with
  | Some s => truthy s
  | None => false
  end.

(** [x or y] on [str | None]; [y] is only evaluated when [x] is falsy. *)
Definition py_or (x y : option string) : option string :=
  if truthy_opt x then x else y.

(** Outcome of the start-up code: a value, or [RuntimeError(msg)]. *)
Inductive Startup (A : Type) : Type :=
| Done (a : A)
| RuntimeError (msg : string).

Arguments Done {A} a.
Arguments RuntimeError {A} msg.

Definition _get_keyring_creds (os : Os) (keyring : Keyring) : option string :=
  keyring !! ("discord-pin-archiver", getuser os).

Definition _set_keyring_creds (os : Os) (keyring : Keyring) (token : string)
  : Keyring :=
  <[("discord-pin-archiver", getuser os) := token]> keyring.

Definition _get_token (os : Os) (keyring : Keyring) : Startup string :=
  let token :=
    py_or (environ os !! "PIN_ARCHIVER_TOKEN") (_get_keyring_creds os keyring) in
  match token with
  | Some token =>
      if truthy token then Done token
      else RuntimeError
             "NO TOKEN? (Use Environment `PIN_ARCHIVER_TOKEN` or launch with `--setup` to go through interactive setup)"
  | None =>
      RuntimeError
        "NO TOKEN? (Use Environment `PIN_ARCHIVER_TOKEN` or launch with `--setup` to go through interactive setup)"
  end.

(** [run_setup]; [typed] is what [getpass.getpass] returns. *)
Definition run_setup (os : Os) (keyring : Keyring) (typed : string)
  : Startup unit * Keyring :=
  if truthy typed then (Done tt, _set_keyring_creds os keyring typed)
  else (RuntimeError "Not storing empty token", keyring).

(** What [main] ends up doing. *)
Inductive Launch : Type :=
| SetupRan
| TokenStored
| BotRan (token : string).

(** [run_bot]: the client is started with the token [_get_token] finds. *)
Definition run_bot (os : Os) (keyring : Keyring) : Startup Launch :=
  match _get_token os keyring with
  | Done token => Done (BotRan token)
  | RuntimeError msg => RuntimeError msg
  end.

(** The parsed command line: [--setup] and [--set-token-to]. *)
Record Args : Type := mkArgs {
  isetup : bool;
  token : option string
}.

Definition main (args : Args) (os : Os) (keyring : Keyring) (typed : string)
  : Startup Launch * Keyring :=
  if isetup args then
    match run_setup os keyring typed with
    | (Done _, keyring') => (Done SetupRan, keyring')
    | (RuntimeError msg, keyring') => (RuntimeError msg, keyring')
    end
  else
    match token args with
    | Some token =>
        if truthy token
        then (Done TokenStored, _set_keyring_creds os keyring token)
        else (run_bot os keyring, keyring)
    | None => (run_bot os keyring, keyring)
    end.

(** * Properties *)

(** ** Settings store *)

Section SettingsStore.

Implicit Types (self : Bot) (conn : Table) (g c : Z) (m : PinMode).

Lemma PinMode_of_value m : PinMode_of (value m) = Ok m.
Proof. by destruct m. Qed.

Lemma from_row_to_row (location : PinArchiveLocation) :
  from_row (to_row location) = Ok location.
Proof.
  destruct location as [g c m]. unfold from_row, to_row. simpl.
  by rewrite PinMode_of_value.
Qed.

Lemma with_connection_same self : with_connection self (db_connection self) = self.
Proof. by destruct self. Qed.

Lemma get_archive_channel_None self g :
  db_connection self !! g = None ->
  get_archive_channel self g = (Ok None, self).
Proof.
  intros Hg. unfold get_archive_channel, _query, SELECT_BY_GUILD_STATEMENT.
  rewrite Hg. simpl. by rewrite with_connection_same.
Qed.

Lemma get_archive_channel_Some self g c m :
  db_connection self !! g = Some (c, value m) ->
  get_archive_channel self g = (Ok (Some (mkLocation g c m)), self).
Proof.
  intros Hg. unfold get_archive_channel, _query, SELECT_BY_GUILD_STATEMENT.
  rewrite Hg. simpl. rewrite PinMode_of_value. simpl.
  by rewrite with_connection_same.
Qed.

Lemma upsert_archive_channel_eq self g c m :
  upsert_archive_channel self g c m
  = (Ok (Some (mkLocation g c m)),
     with_connection self (<[g := (c, value m)]> (db_connection self))).
Proof.
  unfold upsert_archive_channel, _upsert, UPSERT_ARCHIVE_STATEMENT, to_row.
  simpl. by rewrite PinMode_of_value.
Qed.

(** What the joint update does to a stored row: [channel_id] becomes the
    truth value of [? AND (pin_mode = ?)], [pin_mode] stays. *)
Lemma update_channel_and_mode_eq self g c0 m0 channel m :
  db_connection self !! g = Some (c0, value m0) ->
  update_archive_channel self g (Some channel) (Some m)
  = (Ok (Some (mkLocation g
                 (sql_and (TextChannel.id channel) (sql_eq (value m0) (value m)))
                 m0)),
     with_connection self
       (<[g := (sql_and (TextChannel.id channel) (sql_eq (value m0) (value m)),
                value m0)]> (db_connection self))).
Proof.
  intros Hg.
  unfold update_archive_channel, _query, UPDATE_CHANNEL_AND_MODE_STATEMENT.
  rewrite Hg. simpl. by rewrite PinMode_of_value.
Qed.

Lemma sql_and_bool a b : sql_and a b = 0 \/ sql_and a b = 1.
Proof. unfold sql_and. destruct (_ || _); auto. Qed.

End SettingsStore.

(** C5. [upsert] then [get]: for every guild id, channel id and mode, the
    upsert returns the tuple [(guild, channel, mode)] and a following get
    of that guild returns exactly the same tuple, leaving the bot as the
    upsert left it. *)
Theorem upsert_then_get_roundtrip (self : Bot) (g c : Z) (m : PinMode) :
  (upsert_archive_channel self g c m).1 = Ok (Some (mkLocation g c m)) /\
  get_archive_channel (upsert_archive_channel self g c m).2 g
  = (Ok (Some (mkLocation g c m)), (upsert_archive_channel self g c m).2).
Proof.
  rewrite upsert_archive_channel_eq. simpl. split; [done|].
  apply get_archive_channel_Some. simpl. apply lookup_insert_eq.
Qed.

(** C9. [delete] never fails: [_drop] returns normally for every table and
    guild id; when the guild has no row the table is left exactly as it
    was; and dropping twice leaves the same table as dropping once. *)
Theorem drop_total_noop_idempotent (conn : Table) (g : Z) :
  (_drop conn g).1 = Ok tt /\
  (conn !! g = None -> (_drop conn g).2 = conn) /\
  _drop (_drop conn g).2 g = _drop conn g.
Proof.
  unfold _drop, DROP_ARCHIVE_STATEMENT. simpl. repeat split.
  - intros Hg. by apply delete_id.
  - by rewrite delete_delete_eq.
Qed.

Lemma drop_total_noop_idempotent_witness :
  ({[ 7 := (70, 1) ]} : Table) !! 5 = None /\
  (_drop ({[ 7 := (70, 1) ]} : Table) 5).1 = Ok tt /\
  (_drop ({[ 7 := (70, 1) ]} : Table) 5).2 = {[ 7 := (70, 1) ]} /\
  _drop (_drop ({[ 7 := (70, 1) ]} : Table) 5).2 5
  = _drop ({[ 7 := (70, 1) ]} : Table) 5.
Proof.
  split; [reflexivity|].
  destruct (drop_total_noop_idempotent {[ 7 := (70, 1) ]} 5) as (H1 & H2 & H3).
  split; [exact H1 | split; [apply H2; reflexivity | exact H3]].
Defined.

(** C6. Partial updates of a stored row: with only the channel given, the
    row's [channel_id] becomes that channel and its [pin_mode] is kept;
    with only the mode given, [pin_mode] becomes that mode and
    [channel_id] is kept; every other row is as before.  With neither
    given, the bot (and so the table) is unchanged and the result is
    [None]. *)
Theorem update_partial_frame (self : Bot) (g c0 : Z) (m0 : PinMode)
    (channel : TextChannel.t) (m : PinMode) :
  db_connection self !! g = Some (c0, value m0) ->
  update_archive_channel self g (Some channel) None
  = (Ok (Some (mkLocation g (TextChannel.id channel) m0)),
     with_connection self
       (<[g := (TextChannel.id channel, value m0)]> (db_connection self))) /\
  update_archive_channel self g None (Some m)
  = (Ok (Some (mkLocation g c0 m)),
     with_connection self (<[g := (c0, value m)]> (db_connection self))) /\
  update_archive_channel self g None None = (Ok None, self).
Proof.
  intros Hg. repeat apply conj.
  - unfold update_archive_channel, _query, UPDATE_CHANNEL_STATEMENT.
    rewrite Hg. simpl. by rewrite PinMode_of_value.
  - unfold update_archive_channel, _query, UPDATE_MODE_STATEMENT.
    rewrite Hg. simpl. by rewrite PinMode_of_value.
  - reflexivity.
Qed.

Lemma update_partial_frame_witness :
  db_connection (PinArchiverBot_init {[ 1 := (100, 1) ]}) !! 1
  = Some (100, value oldest) /\
  update_archive_channel (PinArchiverBot_init {[ 1 := (100, 1) ]}) 1
    (Some (TextChannel.mk 200)) None
  = (Ok (Some (mkLocation 1 200 oldest)),
     with_connection (PinArchiverBot_init {[ 1 := (100, 1) ]})
       (<[1 := (200, value oldest)]> {[ 1 := (100, 1) ]})) /\
  update_archive_channel (PinArchiverBot_init {[ 1 := (100, 1) ]}) 1
    None (Some newest)
  = (Ok (Some (mkLocation 1 100 newest)),
     with_connection (PinArchiverBot_init {[ 1 := (100, 1) ]})
       (<[1 := (100, value newest)]> {[ 1 := (100, 1) ]})) /\
  update_archive_channel (PinArchiverBot_init {[ 1 := (100, 1) ]}) 1
    None None
  = (Ok None, PinArchiverBot_init {[ 1 := (100, 1) ]}).
Proof.
  split; [reflexivity|].
  exact (update_partial_frame (PinArchiverBot_init {[ 1 := (100, 1) ]})
           1 100 oldest (TextChannel.mk 200) newest eq_refl).
Defined.

(** C1. The joint update at a stored row [(1, 100, oldest)] with channel
    200 and mode [newest]: the row returned and stored is [(1, 0, oldest)],
    neither the given channel nor the given mode. *)
Theorem update_channel_and_mode_failing_input :
  update_archive_channel (PinArchiverBot_init {[ 1 := (100, 1) ]}) 1
    (Some (TextChannel.mk 200)) (Some newest)
  = (Ok (Some (mkLocation 1 0 oldest)),
     PinArchiverBot_init {[ 1 := (0, 1) ]}).
Proof.
  rewrite (update_channel_and_mode_eq _ 1 100 oldest); [|reflexivity].
  simpl. unfold with_connection, PinArchiverBot_init. simpl.
  by rewrite insert_singleton_eq.
Qed.

(** ** Relocation handler *)

(** C8. A guild without a settings row: [get] returns [None], and the
    handler returns at once, with an empty trace (no pin fetch, no unpin,
    no send) and the bot (guard and table) unchanged. *)
Theorem no_settings_no_action (platform : Platform) (self : Bot)
    (channel : Channel.t) :
  db_connection self !! Channel.guild_id channel = None ->
  get_archive_channel self (Channel.guild_id channel) = (Ok None, self) /\
  on_guild_channel_pins_update platform self channel = (Ok tt, self, []).
Proof.
  intros Hg. split; [by apply get_archive_channel_None|].
  unfold on_guild_channel_pins_update.
  by rewrite (get_archive_channel_None _ _ Hg).
Qed.

Section Handler.

Implicit Types (platform : Platform) (self : Bot) (channel : Channel.t)
  (stack : list Z) (pin : Message.t) (archive_channel : TextChannel.t).

Lemma getitem_last {A : Type} (l : list A) (x : A) :
  last l = Some x -> getitem l (-1) = Ok x.
Proof.
  intros Hl. apply last_Some in Hl as [l' ->].
  unfold getitem. rewrite length_app. simpl.
  replace (-1 + Z.of_nat (length l' + 1)) with (Z.of_nat (length l')) by lia.
  rewrite Nat2Z.id.
  destruct (Z.ltb_spec (Z.of_nat (length l')) 0); [lia|].
  destruct (Z.leb_spec (Z.of_nat (length l' + 1)) (Z.of_nat (length l')));
    [lia|]. simpl.
  by rewrite list_lookup_middle.
Qed.

Lemma getitem_head {A : Type} (l : list A) (x : A) :
  head l = Some x -> getitem l 0 = Ok x.
Proof.
  destruct l as [|y l]; [done|]. simpl. intros [= ->].
  unfold getitem. simpl length.
  destruct (Z.leb_spec (Z.of_nat (S (length l))) 0); [lia|]. done.
Qed.

Lemma handler_at_threshold platform self channel c m current_pins
    archive_channel :
  db_connection self !! Channel.guild_id channel = Some (c, value m) ->
  pins platform channel = Ok current_pins ->
  (49 <= length current_pins)%nat ->
  get_channel platform (Channel.guild_id channel) c
    = Some (IsTextChannel archive_channel) ->
  on_guild_channel_pins_update platform self channel
  = finish self [EvPins channel]
      (relocate platform (_guard_stack self)
         (mkLocation (Channel.guild_id channel) c m) archive_channel
         current_pins).
Proof.
  intros Hrow Hpins Hlen Hch. unfold on_guild_channel_pins_update.
  rewrite (get_archive_channel_Some _ _ _ _ Hrow), Hpins.
  destruct (Z.ltb_spec (Z.of_nat (length current_pins)) 49); [lia|].
  simpl. by rewrite Hch.
Qed.

Lemma handler_at_guard platform conn stack channel archive_channel pin :
  reaches_guard platform conn channel archive_channel pin ->
  on_guild_channel_pins_update platform (mkBot conn stack) channel
  = finish (mkBot conn stack) [EvPins channel]
      (relocate_pin platform stack archive_channel pin).
Proof.
  intros (c & m & current_pins & Hrow & Hpins & Hlen & Hch & Hsel).
  rewrite (handler_at_threshold _ _ _ c m current_pins archive_channel);
    try done.
  unfold relocate. by rewrite Hsel.
Qed.

Lemma archive_pin_shape platform stack archive_channel pin :
  exists flow trace,
    archive_pin platform stack archive_channel pin
    = (flow, stack, EvUnpin pin :: trace).
Proof.
  unfold archive_pin.
  destruct (unpin platform pin) as [[]|e].
  - destruct (send platform archive_channel (create_pin_embed pin))
      as [[]|e]; [by eexists _, _|].
    destruct e; by eexists _, _.
  - destruct e; by eexists _, _.
Qed.

Lemma deque_pop_nil : deque_pop [] = Raise IndexError.
Proof. reflexivity. Qed.

Lemma deque_pop_append stack (x : Z) :
  deque_pop (deque_append stack x) = Ok (x, stack).
Proof.
  unfold deque_pop, deque_append. rewrite rev_app_distr. simpl.
  by rewrite rev_involutive.
Qed.

Lemma guard_empty (pin_id : Z) : guard [] pin_id = (false, [pin_id]).
Proof. reflexivity. Qed.

Lemma guard_top stack (old_pin pin_id : Z) :
  guard (stack ++ [old_pin]) pin_id = (old_pin =? pin_id, stack).
Proof.
  unfold guard. change (stack ++ [old_pin]) with (deque_append stack old_pin).
  by rewrite deque_pop_append.
Qed.

Lemma guard_single (old_pin pin_id : Z) :
  guard [old_pin] pin_id = (old_pin =? pin_id, []).
Proof. reflexivity. Qed.

Lemma guard_at_most_one stack (pin_id : Z) :
  (length stack <= 1)%nat -> (length (guard stack pin_id).2 <= 1)%nat.
Proof.
  destruct stack as [|old [|? ?]]; simpl; intros Hlen; lia.
Qed.

(** A guard that lets the pin through: the handler goes on to unpin it. *)
Lemma handler_proceeds platform conn stack channel archive_channel pin :
  reaches_guard platform conn channel archive_channel pin ->
  (guard stack (Message.id pin)).1 = false ->
  exists r trace,
    on_guild_channel_pins_update platform (mkBot conn stack) channel
    = (r, mkBot conn (guard stack (Message.id pin)).2,
       EvPins channel :: EvUnpin pin :: trace).
Proof.
  intros Hreach Hg. rewrite (handler_at_guard _ _ _ _ _ _ Hreach).
  unfold relocate_pin.
  destruct (guard stack (Message.id pin)) as [duplicate stack'].
  simpl in Hg. subst duplicate. simpl.
  destruct (archive_pin_shape platform stack' archive_channel pin)
    as (flow & trace & ->).
  unfold finish. simpl. destruct flow; by eexists _, _.
Qed.

(** A guard that reports a duplicate: the handler returns after the fetch. *)
Lemma handler_suppressed platform conn stack channel archive_channel pin :
  reaches_guard platform conn channel archive_channel pin ->
  (guard stack (Message.id pin)).1 = true ->
  on_guild_channel_pins_update platform (mkBot conn stack) channel
  = (Ok tt, mkBot conn (guard stack (Message.id pin)).2, [EvPins channel]).
Proof.
  intros Hreach Hg. rewrite (handler_at_guard _ _ _ _ _ _ Hreach).
  unfold relocate_pin.
  destruct (guard stack (Message.id pin)) as [duplicate stack'].
  simpl in Hg. by subst duplicate.
Qed.

End Handler.

(** C3. With a stored row, a fetched pin list of length at least 49 and
    the stored channel a text channel, the candidate the handler selects
    is the last element of the list when the stored mode is [oldest] and
    the first when it is [newest]; the rest of the handler is the guard
    and the relocation of that very pin. *)
Theorem candidate_by_mode (platform : Platform) (self : Bot)
    (channel : Channel.t) (c : Z) (m : PinMode)
    (current_pins : list Message.t) (archive_channel : TextChannel.t) :
  db_connection self !! Channel.guild_id channel = Some (c, value m) ->
  pins platform channel = Ok current_pins ->
  (49 <= length current_pins)%nat ->
  get_channel platform (Channel.guild_id channel) c
    = Some (IsTextChannel archive_channel) ->
  exists pin : Message.t,
    match m with
    | oldest => last current_pins
    | newest => head current_pins
    end = Some pin /\
    select_pin (mkLocation (Channel.guild_id channel) c m) current_pins
      = Ok pin /\
    on_guild_channel_pins_update platform self channel
    = finish self [EvPins channel]
        (relocate_pin platform (_guard_stack self) archive_channel pin).
Proof.
  intros Hrow Hpins Hlen Hch.
  rewrite (handler_at_threshold _ _ _ c m current_pins archive_channel);
    try done.
  unfold relocate, select_pin. simpl pin_mode. destruct m.
  - destruct (last current_pins) as [pin|] eqn:Hlast.
    + exists pin. by rewrite (getitem_last _ _ Hlast).
    + apply last_None in Hlast. subst. simpl in Hlen. lia.
  - destruct current_pins as [|pin rest]; [simpl in Hlen; lia|].
    exists pin. by rewrite (getitem_head (pin :: rest) pin).
Qed.

Lemma candidate_by_mode_witness :
  exists pin : Message.t,
    last (sample_pins 0) = Some pin /\
    select_pin (mkLocation 1 100 oldest) (sample_pins 0) = Ok pin /\
    on_guild_channel_pins_update (sample_platform (sample_pins 0))
      (PinArchiverBot_init sample_table) sample_channel
    = finish (PinArchiverBot_init sample_table) [EvPins sample_channel]
        (relocate_pin (sample_platform (sample_pins 0)) []
           (TextChannel.mk 100) pin).
Proof.
  apply (candidate_by_mode (sample_platform (sample_pins 0))
           (PinArchiverBot_init sample_table) sample_channel 100 oldest
           (sample_pins 0) (TextChannel.mk 100));
    [reflexivity | reflexivity | vm_compute; lia | reflexivity].
Defined.

(** C4. With a stored row of any mode and a fetched pin list shorter than
    49, the handler returns right after the fetch: the trace holds the
    fetch alone (no unpin, no send), and the bot, guard deque included, is
    unchanged. *)
Theorem below_threshold_no_relocation (platform : Platform) (self : Bot)
    (channel : Channel.t) (c : Z) (m : PinMode)
    (current_pins : list Message.t) :
  db_connection self !! Channel.guild_id channel = Some (c, value m) ->
  pins platform channel = Ok current_pins ->
  (length current_pins < 49)%nat ->
  on_guild_channel_pins_update platform self channel
  = (Ok tt, self, [EvPins channel]).
Proof.
  intros Hrow Hpins Hlen. unfold on_guild_channel_pins_update.
  rewrite (get_archive_channel_Some _ _ _ _ Hrow), Hpins.
  by destruct (Z.ltb_spec (Z.of_nat (length current_pins)) 49); [|lia].
Qed.

Lemma below_threshold_no_relocation_witness :
  on_guild_channel_pins_update (sample_platform (take 48 (sample_pins 0)))
    (mkBot sample_table [7]) sample_channel
  = (Ok tt, mkBot sample_table [7], [EvPins sample_channel]).
Proof.
  apply (below_threshold_no_relocation
           (sample_platform (take 48 (sample_pins 0)))
           (mkBot sample_table [7]) sample_channel 100 oldest
           (take 48 (sample_pins 0)));
    [reflexivity | reflexivity | vm_compute; lia].
Defined.

(** ** Duplicate-event guard *)

Section GuardInvariant.

Implicit Types (platform : Platform) (self : Bot) (channel : Channel.t)
  (stack : list Z).

Lemma get_archive_channel_bot self (g : Z) :
  (get_archive_channel self g).2 = self.
Proof.
  unfold get_archive_channel, _query, SELECT_BY_GUILD_STATEMENT.
  destruct (db_connection self !! g) as [[c m]|]; simpl.
  - destruct (PinMode_of m); simpl; apply with_connection_same.
  - apply with_connection_same.
Qed.

Lemma except_relocate_stack (e : exn) stack (trace : list Event) :
  (except_relocate e stack trace).1.2 = stack.
Proof. by destruct e. Qed.

Lemma relocate_stack platform stack location archive_channel current_pins :
  (relocate platform stack location archive_channel current_pins).1.2 = stack
  \/ exists pin_id : Z,
       (relocate platform stack location archive_channel current_pins).1.2
       = (guard stack pin_id).2.
Proof.
  unfold relocate.
  destruct (select_pin location current_pins) as [pin|e].
  - right. exists (Message.id pin). unfold relocate_pin.
    destruct (guard stack (Message.id pin)) as [[] stack']; [done|]. simpl.
    by destruct (archive_pin_shape platform stack' archive_channel pin)
      as (flow & trace & ->).
  - left. apply except_relocate_stack.
Qed.

Lemma finish_stack self (fetched : list Event)
    (r : Flow * list Z * list Event) :
  _guard_stack (finish self fetched r).1.2 = r.1.2.
Proof. destruct r as [[[] stack] trace]; done. Qed.

Lemma handler_stack platform self channel :
  let self' := (on_guild_channel_pins_update platform self channel).1.2 in
  _guard_stack self' = _guard_stack self
  \/ exists pin_id : Z,
       _guard_stack self' = (guard (_guard_stack self) pin_id).2.
Proof.
  unfold on_guild_channel_pins_update.
  pose proof (get_archive_channel_bot self (Channel.guild_id channel)) as Hbot.
  destruct (get_archive_channel self (Channel.guild_id channel))
    as [[[location|]|e] self0]; simpl in Hbot; subst self0; simpl; auto.
  destruct (pins platform channel) as [current_pins|e].
  - destruct (Z.of_nat (length current_pins) <? 49); simpl; auto.
    destruct (get_channel platform (Channel.guild_id channel)
                (channel_id location)) as [[archive_channel|]|]; simpl; auto.
    rewrite finish_stack. apply relocate_stack.
  - destruct e; simpl; auto.
Qed.

Lemma invoke_at_most_one self (i : Invocation) :
  (length (_guard_stack self) <= 1)%nat ->
  (length (_guard_stack (invoke self i)) <= 1)%nat.
Proof.
  intros Hlen. destruct i as [platform channel|g a m|g a m|g|g]; simpl.
  - destruct (handler_stack platform self channel) as [->|[pin_id ->]];
      [done|by apply guard_at_most_one].
  - unfold pin_setup. by rewrite upsert_archive_channel_eq.
  - unfold pin_update, update_archive_channel.
    destruct a, m; simpl; try done;
      by destruct (_query _ _) as [r conn].
  - unfold pin_current.
    pose proof (get_archive_channel_bot self g) as Hbot.
    destruct (get_archive_channel self g) as [r self0].
    simpl in *. by subst.
  - done.
Qed.

Lemma run_at_most_one (invocations : list Invocation) self :
  (length (_guard_stack self) <= 1)%nat ->
  (length (_guard_stack (run self invocations)) <= 1)%nat.
Proof.
  revert self. induction invocations as [|i invocations IH]; intros self Hlen.
  - done.
  - apply IH. by apply invoke_at_most_one.
Qed.

Lemma guard_run_at_most_one (candidates : list Z) stack :
  (length stack <= 1)%nat ->
  (length (guard_run stack candidates).2 <= 1)%nat.
Proof.
  revert stack. induction candidates as [|pin_id rest IH]; intros stack Hlen.
  - done.
  - simpl. pose proof (guard_at_most_one stack pin_id Hlen) as Hstep.
    destruct (guard stack pin_id) as [duplicate stack'].
    specialize (IH stack' Hstep).
    by destruct (guard_run stack' rest) as [verdicts final].
Qed.

End GuardInvariant.

(** C7. The guard deque never holds more than one identifier: from a
    freshly constructed bot, whatever the stored table, after every
    sequence of events and commands (with any answers of the platform)
    the deque has 0 or 1 items; and so it does after every sequence of
    guard operations run from the empty deque. *)
Theorem guard_stack_at_most_one (stored : Table)
    (invocations : list Invocation) (candidates : list Z) :
  (length (_guard_stack (run (PinArchiverBot_init stored) invocations)) <= 1)%nat
  /\ (length (guard_run [] candidates).2 <= 1)%nat.
Proof.
  split.
  - apply run_at_most_one. simpl. lia.
  - apply guard_run_at_most_one. simpl. lia.
Qed.

(** C2. From the empty guard, three events that reach the guard with
    candidates [x], [x] again, then [y]: the first pushes [x]'s identifier
    and goes on to unpin [x]; the second pops it, finds it equal and
    returns after the fetch with nothing unpinned or sent; the third finds
    the guard empty, pushes [y]'s identifier and goes on to unpin [y].  On
    the guard block alone the verdicts are proceed, suppress, proceed. *)
Theorem duplicate_event_guard_sequence (conn : Table)
    (p1 p2 p3 : Platform) (ch1 ch2 ch3 : Channel.t)
    (a1 a2 a3 : TextChannel.t) (x y : Message.t) :
  reaches_guard p1 conn ch1 a1 x ->
  reaches_guard p2 conn ch2 a2 x ->
  reaches_guard p3 conn ch3 a3 y ->
  (exists r trace,
     on_guild_channel_pins_update p1 (PinArchiverBot_init conn) ch1
     = (r, mkBot conn [Message.id x], EvPins ch1 :: EvUnpin x :: trace)) /\
  on_guild_channel_pins_update p2 (mkBot conn [Message.id x]) ch2
  = (Ok tt, mkBot conn [], [EvPins ch2]) /\
  (exists r trace,
     on_guild_channel_pins_update p3 (mkBot conn []) ch3
     = (r, mkBot conn [Message.id y], EvPins ch3 :: EvUnpin y :: trace)) /\
  guard_run [] [Message.id x; Message.id x; Message.id y]
  = ([false; true; false], [Message.id y]).
Proof.
  intros H1 H2 H3.
  assert (Hdup : guard [Message.id x] (Message.id x) = (true, [])).
  { by rewrite guard_single, Z.eqb_refl. }
  repeat apply conj.
  - apply (handler_proceeds p1 conn [] ch1 a1 x H1). reflexivity.
  - rewrite (handler_suppressed p2 conn [Message.id x] ch2 a2 x H2);
      by rewrite Hdup.
  - apply (handler_proceeds p3 conn [] ch3 a3 y H3). reflexivity.
  - cbn [guard_run]. rewrite guard_empty, Hdup, guard_empty. reflexivity.
Qed.

Lemma duplicate_event_guard_sequence_witness :
  (exists r trace,
     on_guild_channel_pins_update (sample_platform (sample_pins 0))
       (PinArchiverBot_init sample_table) sample_channel
     = (r, mkBot sample_table [48],
        EvPins sample_channel :: EvUnpin (Message.mk 48 "" []) :: trace)) /\
  on_guild_channel_pins_update (sample_platform (sample_pins 0))
    (mkBot sample_table [48]) sample_channel
  = (Ok tt, mkBot sample_table [], [EvPins sample_channel]) /\
  (exists r trace,
     on_guild_channel_pins_update (sample_platform (sample_pins 1))
       (mkBot sample_table []) sample_channel
     = (r, mkBot sample_table [49],
        EvPins sample_channel :: EvUnpin (Message.mk 49 "" []) :: trace)) /\
  guard_run [] [48; 48; 49] = ([false; true; false], [49]).
Proof.
  apply (duplicate_event_guard_sequence sample_table
           (sample_platform (sample_pins 0)) (sample_platform (sample_pins 0))
           (sample_platform (sample_pins 1))
           sample_channel sample_channel sample_channel
           (TextChannel.mk 100) (TextChannel.mk 100) (TextChannel.mk 100)
           (Message.mk 48 "" []) (Message.mk 49 "" []));
    (exists 100, oldest; eexists; repeat apply conj;
     [reflexivity | reflexivity | vm_compute; lia | reflexivity
     | vm_compute; reflexivity]).
Defined.

(** C10. When the guard pops an identifier that differs from the
    candidate's, the guard lets the candidate through and leaves the deque
    as it was below the popped item: the candidate's identifier is not
    pushed.  So from the empty guard, events with candidates [x], then [y]
    of another identifier, then [y] again: the second leaves the guard
    empty, and the third is not suppressed but goes on to unpin [y]. *)
Theorem differing_pop_not_pushed (conn : Table)
    (p1 p2 p3 : Platform) (ch1 ch2 ch3 : Channel.t)
    (a1 a2 a3 : TextChannel.t) (x y : Message.t)
    (stack : list Z) (old_pin : Z) :
  old_pin <> Message.id y ->
  Message.id x <> Message.id y ->
  reaches_guard p1 conn ch1 a1 x ->
  reaches_guard p2 conn ch2 a2 y ->
  reaches_guard p3 conn ch3 a3 y ->
  guard (stack ++ [old_pin]) (Message.id y) = (false, stack) /\
  (exists r trace,
     on_guild_channel_pins_update p1 (PinArchiverBot_init conn) ch1
     = (r, mkBot conn [Message.id x], EvPins ch1 :: EvUnpin x :: trace)) /\
  (exists r trace,
     on_guild_channel_pins_update p2 (mkBot conn [Message.id x]) ch2
     = (r, mkBot conn [], EvPins ch2 :: EvUnpin y :: trace)) /\
  (exists r trace,
     on_guild_channel_pins_update p3 (mkBot conn []) ch3
     = (r, mkBot conn [Message.id y], EvPins ch3 :: EvUnpin y :: trace)) /\
  guard_run [] [Message.id x; Message.id y; Message.id y]
  = ([false; false; false], [Message.id y]).
Proof.
  intros Hold Hxy H1 H2 H3.
  assert (Hpop : forall s o, o <> Message.id y ->
                   guard (s ++ [o]) (Message.id y) = (false, s)).
  { intros s o Ho. rewrite guard_top.
    by destruct (Z.eqb_spec o (Message.id y)). }
  pose proof (Hpop [] (Message.id x) Hxy) as Hdiff.
  change ([] ++ [Message.id x]) with [Message.id x] in Hdiff.
  repeat apply conj.
  - by apply Hpop.
  - apply (handler_proceeds p1 conn [] ch1 a1 x H1). reflexivity.
  - destruct (handler_proceeds p2 conn [Message.id x] ch2 a2 y H2)
      as (r & trace & Heq); [by rewrite Hdiff|].
    rewrite Hdiff in Heq. by exists r, trace.
  - apply (handler_proceeds p3 conn [] ch3 a3 y H3). reflexivity.
  - cbn [guard_run]. rewrite guard_empty, Hdiff, guard_empty. reflexivity.
Qed.

Lemma differing_pop_not_pushed_witness :
  guard ([] ++ [48]) 49 = (false, []) /\
  (exists r trace,
     on_guild_channel_pins_update (sample_platform (sample_pins 0))
       (PinArchiverBot_init sample_table) sample_channel
     = (r, mkBot sample_table [48],
        EvPins sample_channel :: EvUnpin (Message.mk 48 "" []) :: trace)) /\
  (exists r trace,
     on_guild_channel_pins_update (sample_platform (sample_pins 1))
       (mkBot sample_table [48]) sample_channel
     = (r, mkBot sample_table [],
        EvPins sample_channel :: EvUnpin (Message.mk 49 "" []) :: trace)) /\
  (exists r trace,
     on_guild_channel_pins_update (sample_platform (sample_pins 1))
       (mkBot sample_table []) sample_channel
     = (r, mkBot sample_table [49],
        EvPins sample_channel :: EvUnpin (Message.mk 49 "" []) :: trace)) /\
  guard_run [] [48; 49; 49] = ([false; false; false], [49]).
Proof.
  apply (differing_pop_not_pushed sample_table
           (sample_platform (sample_pins 0)) (sample_platform (sample_pins 1))
           (sample_platform (sample_pins 1))
           sample_channel sample_channel sample_channel
           (TextChannel.mk 100) (TextChannel.mk 100) (TextChannel.mk 100)
           (Message.mk 48 "" []) (Message.mk 49 "" []) [] 48);
    [simpl; lia | simpl; lia | | | ];
    (exists 100, oldest; eexists; repeat apply conj;
     [reflexivity | reflexivity | vm_compute; lia | reflexivity
     | vm_compute; reflexivity]).
Defined.

Lemma no_settings_no_action_witness :
  db_connection (mkBot sample_table [7]) !! Channel.guild_id (Channel.mk 5 2)
  = None /\
  get_archive_channel (mkBot sample_table [7]) 2
  = (Ok None, mkBot sample_table [7]) /\
  on_guild_channel_pins_update (sample_platform (sample_pins 0))
    (mkBot sample_table [7]) (Channel.mk 5 2)
  = (Ok tt, mkBot sample_table [7], []).
Proof.
  split; [reflexivity|].
  exact (no_settings_no_action (sample_platform (sample_pins 0))
           (mkBot sample_table [7]) (Channel.mk 5 2) eq_refl).
Defined.

(** ** The definitions at work *)

Example getitem_negative : getitem [10; 20; 30] (-1) = Ok 30.
Proof. reflexivity. Qed.

Example getitem_out_of_range : getitem [10; 20; 30] 3 = Raise IndexError.
Proof. reflexivity. Qed.

Example getitem_empty : getitem (@nil Z) (-1) = Raise IndexError.
Proof. reflexivity. Qed.

Example from_row_bad_mode : from_row (1, 100, 3) = Raise ValueError.
Proof. reflexivity. Qed.

(** A full relocation on the sample world: fetch, unpin the oldest pin,
    send its embed to channel 100, log. *)
Example handler_relocates_oldest :
  on_guild_channel_pins_update (sample_platform (sample_pins 0))
    (PinArchiverBot_init sample_table) sample_channel
  = (Ok tt, mkBot sample_table [48],
     [EvPins sample_channel;
      EvUnpin (Message.mk 48 "" []);
      EvSend (TextChannel.mk 100) (Embed.mk "" None);
      EvLogInfo]).
Proof. vm_compute. reflexivity. Qed.

(** The joint update when the stored mode already is the given one: the
    stored channel becomes 1. *)
Example joint_update_same_mode :
  (update_archive_channel (PinArchiverBot_init sample_table) 1
     (Some (TextChannel.mk 200)) (Some oldest)).1
  = Ok (Some (mkLocation 1 1 oldest)).
Proof. reflexivity. Qed.

(** * Further properties *)

(** ** Rows and locations *)

(** X1. Decoding a row succeeds with a location exactly when the row is
    that location's encoding: [from_row] and [to_row] are inverse on the
    rows that decode. *)
Theorem from_row_iff_to_row (row : Row) (location : PinArchiveLocation) :
  from_row row = Ok location <-> to_row location = row.
Proof.
  split.
  - destruct row as [[r0 r1] r2]. unfold from_row, to_row, PinMode_of.
    destruct (Z.eqb_spec r2 1) as [->|_]; simpl.
    + by intros [= <-].
    + destruct (Z.eqb_spec r2 2) as [->|_]; simpl; [by intros [= <-]|done].
  - intros <-. apply from_row_to_row.
Qed.

(** X2. Decoding a row raises [ValueError] exactly when its [pin_mode]
    column is neither 1 nor 2; nothing else makes it fail. *)
Theorem from_row_raises_iff (g c m : Z) :
  (from_row (g, c, m) = Raise ValueError <-> m <> 1 /\ m <> 2) /\
  (forall e, from_row (g, c, m) = Raise e -> e = ValueError).
Proof.
  unfold from_row, PinMode_of.
  destruct (Z.eqb_spec m 1) as [->|H1]; simpl.
  { split; [split; [done|intros [? _]; done]|done]. }
  destruct (Z.eqb_spec m 2) as [->|H2]; simpl.
  { split; [split; [done|intros [_ ?]; done]|done]. }
  split; [done|]. by intros e [= <-].
Qed.

(** ** Settings store: frame, missing rows, composition *)

Section StoreExtras.

Implicit Types (self : Bot) (g c : Z) (m : PinMode).

Lemma with_connection_twice self (t1 t2 : Table) :
  with_connection (with_connection self t1) t2 = with_connection self t2.
Proof. done. Qed.

Lemma update_archive_channel_None self g
    (channel : option TextChannel.t) (mode : option PinMode) :
  db_connection self !! g = None ->
  update_archive_channel self g channel mode = (Ok None, self).
Proof.
  intros Hg. unfold update_archive_channel, _query,
    UPDATE_CHANNEL_AND_MODE_STATEMENT, UPDATE_CHANNEL_STATEMENT,
    UPDATE_MODE_STATEMENT.
  destruct channel, mode; rewrite ?Hg; simpl;
    by rewrite ?with_connection_same.
Qed.

(** The table an update leaves differs from the one it found at most at
    the guild's own key. *)
Lemma update_archive_channel_other self g g'
    (channel : option TextChannel.t) (mode : option PinMode) :
  g <> g' ->
  db_connection (update_archive_channel self g channel mode).2 !! g'
  = db_connection self !! g'.
Proof.
  intros Hne. unfold update_archive_channel, _query,
    UPDATE_CHANNEL_AND_MODE_STATEMENT, UPDATE_CHANNEL_STATEMENT,
    UPDATE_MODE_STATEMENT.
  destruct channel, mode; simpl; try done;
    destruct (db_connection self !! g) as [[c0 m0]|]; simpl; try done;
    destruct (PinMode_of _); simpl; try done;
    by rewrite lookup_insert_ne.
Qed.

End StoreExtras.

(** X3. Settings are per guild: setting up, updating or disabling guild
    [g] leaves the row (or the absence of a row) of every other guild
    exactly as it was. *)
Theorem other_guilds_untouched (self : Bot) (g g' c : Z) (m : PinMode)
    (channel : option TextChannel.t) (mode : option PinMode) :
  g <> g' ->
  db_connection (upsert_archive_channel self g c m).2 !! g'
  = db_connection self !! g' /\
  db_connection (update_archive_channel self g channel mode).2 !! g'
  = db_connection self !! g' /\
  db_connection (pin_disable self g).2 !! g' = db_connection self !! g'.
Proof.
  intros Hne. repeat apply conj.
  - rewrite upsert_archive_channel_eq. simpl. by rewrite lookup_insert_ne.
  - by apply update_archive_channel_other.
  - unfold pin_disable, _drop, DROP_ARCHIVE_STATEMENT. simpl.
    by rewrite lookup_delete_ne.
Qed.

Lemma other_guilds_untouched_witness :
  db_connection
    (upsert_archive_channel (PinArchiverBot_init sample_table) 2 300 newest).2
    !! 1 = Some (100, 1) /\
  db_connection
    (update_archive_channel (PinArchiverBot_init sample_table) 2
       (Some (TextChannel.mk 300)) (Some newest)).2 !! 1 = Some (100, 1) /\
  db_connection (pin_disable (PinArchiverBot_init sample_table) 2).2 !! 1
  = Some (100, 1).
Proof.
  exact (other_guilds_untouched (PinArchiverBot_init sample_table) 2 1 300
           newest (Some (TextChannel.mk 300)) (Some newest) ltac:(lia)).
Defined.

(** X4. Updating a guild that has no row changes nothing and returns
    [None], whichever of channel and mode are given; the update command
    then sends no follow-up at all (the "no changes" text only when
    neither was given). *)
Theorem update_without_row (self : Bot) (g : Z)
    (channel : option TextChannel.t) (mode : option PinMode) :
  db_connection self !! g = None ->
  update_archive_channel self g channel mode = (Ok None, self) /\
  pin_update self g channel mode
  = (Ok match channel, mode with
        | None, None => ReplyText "No new settings put in: No changes made."
        | _, _ => NoReply
        end, self).
Proof.
  intros Hg. split; [by apply update_archive_channel_None|].
  unfold pin_update.
  destruct channel, mode; try done;
    by rewrite (update_archive_channel_None _ _ _ _ Hg).
Qed.

Lemma update_without_row_witness :
  update_archive_channel (PinArchiverBot_init sample_table) 2
    (Some (TextChannel.mk 300)) (Some newest)
  = (Ok None, PinArchiverBot_init sample_table) /\
  pin_update (PinArchiverBot_init sample_table) 2
    (Some (TextChannel.mk 300)) (Some newest)
  = (Ok NoReply, PinArchiverBot_init sample_table).
Proof.
  exact (update_without_row (PinArchiverBot_init sample_table) 2
           (Some (TextChannel.mk 300)) (Some newest) eq_refl).
Defined.

(** X5. What the joint update does to a stored row, in general: the
    row's [pin_mode] is never changed, and its [channel_id] becomes a
    truth value, 1 when the given channel identifier is not 0 and the
    stored mode already is the given mode, and 0 otherwise.  The row
    returned is the row stored. *)
Theorem joint_update_stores_truth_value (self : Bot) (g c0 : Z)
    (m0 m : PinMode) (channel : TextChannel.t) :
  db_connection self !! g = Some (c0, value m0) ->
  let flag :=
    if negb (TextChannel.id channel =? 0) && (value m0 =? value m)
    then 1 else 0 in
  update_archive_channel self g (Some channel) (Some m)
  = (Ok (Some (mkLocation g flag m0)),
     with_connection self (<[g := (flag, value m0)]> (db_connection self))).
Proof.
  intros Hg flag. rewrite (update_channel_and_mode_eq _ _ _ _ _ _ Hg).
  assert (Hflag : sql_and (TextChannel.id channel) (sql_eq (value m0) (value m))
                  = flag).
  { unfold flag, sql_and, sql_eq.
    destruct (TextChannel.id channel =? 0); [done|]. simpl.
    by destruct (value m0 =? value m). }
  by rewrite Hflag.
Qed.

Lemma joint_update_stores_truth_value_witness :
  update_archive_channel (PinArchiverBot_init sample_table) 1
    (Some (TextChannel.mk 200)) (Some oldest)
  = (Ok (Some (mkLocation 1 1 oldest)),
     with_connection (PinArchiverBot_init sample_table)
       (<[1 := (1, value oldest)]> sample_table)).
Proof.
  exact (joint_update_stores_truth_value (PinArchiverBot_init sample_table)
           1 100 oldest oldest (TextChannel.mk 200) eq_refl).
Defined.

(** X6. A later [setup] fully overrides an earlier one for the same
    guild: reply and bot are those of the later [setup] run alone. *)
Theorem setup_overrides_setup (self : Bot) (g : Z)
    (a a' : TextChannel.t) (m m' : PinMode) :
  pin_setup (pin_setup self g a m).2 g a' m' = pin_setup self g a' m'.
Proof.
  unfold pin_setup. rewrite !upsert_archive_channel_eq. simpl.
  by rewrite with_connection_twice, insert_insert_eq.
Qed.

Lemma update_channel_only_eq (self : Bot) (g c0 : Z) (m0 : PinMode)
    (channel : TextChannel.t) :
  db_connection self !! g = Some (c0, value m0) ->
  update_archive_channel self g (Some channel) None
  = (Ok (Some (mkLocation g (TextChannel.id channel) m0)),
     with_connection self
       (<[g := (TextChannel.id channel, value m0)]> (db_connection self))).
Proof.
  intros Hg. unfold update_archive_channel, _query, UPDATE_CHANNEL_STATEMENT.
  rewrite Hg. simpl. by rewrite PinMode_of_value.
Qed.

Lemma update_mode_only_eq (self : Bot) (g c0 : Z) (m0 m : PinMode) :
  db_connection self !! g = Some (c0, value m0) ->
  update_archive_channel self g None (Some m)
  = (Ok (Some (mkLocation g c0 m)),
     with_connection self (<[g := (c0, value m)]> (db_connection self))).
Proof.
  intros Hg. unfold update_archive_channel, _query, UPDATE_MODE_STATEMENT.
  rewrite Hg. simpl. by rewrite PinMode_of_value.
Qed.

(** X7. After a [setup], an update of the mode alone, or of the channel
    alone, gives the result and the bot that a [setup] with the new value
    in that place would have given. *)
Theorem update_after_setup (self : Bot) (g c : Z) (m m' : PinMode)
    (channel : TextChannel.t) :
  update_archive_channel (upsert_archive_channel self g c m).2 g
    None (Some m')
  = upsert_archive_channel self g c m' /\
  update_archive_channel (upsert_archive_channel self g c m).2 g
    (Some channel) None
  = upsert_archive_channel self g (TextChannel.id channel) m.
Proof.
  rewrite !upsert_archive_channel_eq. cbn [snd]. split.
  - rewrite (update_mode_only_eq _ g c m m');
      [|simpl; by rewrite lookup_insert_eq].
    simpl. by rewrite with_connection_twice, insert_insert_eq.
  - rewrite (update_channel_only_eq _ g c m channel);
      [|simpl; by rewrite lookup_insert_eq].
    simpl. by rewrite with_connection_twice, insert_insert_eq.
Qed.

(** ** Commands *)

(** X8. Setting up a guild that had no row and then disabling it gives
    back the bot exactly as it was before the two commands. *)
Theorem setup_then_disable_restores (self : Bot) (g : Z)
    (a : TextChannel.t) (m : PinMode) :
  db_connection self !! g = None ->
  (pin_disable (pin_setup self g a m).2 g).2 = self.
Proof.
  intros Hg. unfold pin_setup. rewrite upsert_archive_channel_eq.
  unfold pin_disable, _drop, DROP_ARCHIVE_STATEMENT. simpl.
  rewrite with_connection_twice, delete_insert_id by done.
  apply with_connection_same.
Qed.

Lemma setup_then_disable_restores_witness :
  (pin_disable
     (pin_setup (mkBot sample_table [7]) 2 (TextChannel.mk 300) newest).2 2).2
  = mkBot sample_table [7].
Proof.
  exact (setup_then_disable_restores (mkBot sample_table [7]) 2
           (TextChannel.mk 300) newest eq_refl).
Defined.

(** X9. After [disable], whatever the table held: [current] answers that
    the archive is not set up, and a pins event in that guild is ignored
    (empty trace, bot unchanged), with any platform. *)
Theorem disable_then_nothing (platform : Platform) (self : Bot)
    (channel : Channel.t) :
  let self' := (pin_disable self (Channel.guild_id channel)).2 in
  pin_current self' (Channel.guild_id channel)
  = (Ok (ReplyText "The pin archive has not be set up for this server."),
     self') /\
  on_guild_channel_pins_update platform self' channel = (Ok tt, self', []).
Proof.
  intros self'.
  assert (Hg : db_connection self' !! Channel.guild_id channel = None).
  { unfold self', pin_disable, _drop, DROP_ARCHIVE_STATEMENT. simpl.
    apply lookup_delete_eq. }
  split.
  - unfold pin_current. by rewrite (get_archive_channel_None _ _ Hg).
  - unfold on_guild_channel_pins_update.
    by rewrite (get_archive_channel_None _ _ Hg).
Qed.

(** X10. After [setup], [current] replies with exactly the settings given
    to [setup], and [setup] itself replied with the same settings. *)
Theorem setup_then_current (self : Bot) (g : Z) (a : TextChannel.t)
    (m : PinMode) :
  (pin_setup self g a m).1
  = Ok (ReplyEmbed "Current Pin Archive Settings"
          (mkLocation g (TextChannel.id a) m)) /\
  pin_current (pin_setup self g a m).2 g
  = (Ok (ReplyEmbed "Current Pin Archive Settings"
           (mkLocation g (TextChannel.id a) m)),
     (pin_setup self g a m).2).
Proof.
  unfold pin_setup. rewrite upsert_archive_channel_eq. simpl.
  split; [done|]. unfold pin_current.
  rewrite (get_archive_channel_Some _ g (TextChannel.id a) m); [done|].
  simpl. apply lookup_insert_eq.
Qed.

(** ** What a run keeps *)

Section RunInvariants.

Implicit Types (platform : Platform) (self : Bot) (channel : Channel.t).

Lemma handler_table platform self channel :
  db_connection (on_guild_channel_pins_update platform self channel).1.2
  = db_connection self.
Proof.
  unfold on_guild_channel_pins_update.
  pose proof (get_archive_channel_bot self (Channel.guild_id channel)) as Hbot.
  destruct (get_archive_channel self (Channel.guild_id channel))
    as [[[location|]|e] self0]; simpl in Hbot; subst self0; simpl; auto.
  destruct (pins platform channel) as [current_pins|e].
  - destruct (Z.of_nat (length current_pins) <? 49); simpl; auto.
    destruct (get_channel platform (Channel.guild_id channel)
                (channel_id location)) as [[archive_channel|]|]; simpl; auto.
    destruct (relocate _ _ _ _ _) as [[[] stack] trace]; done.
  - destruct e; simpl; auto.
Qed.

Lemma valid_table_insert (t : Table) (g c : Z) (m : PinMode) :
  valid_table t -> valid_table (<[g := (c, value m)]> t).
Proof.
  intros Ht g' c' m' Hlook.
  destruct (decide (g = g')) as [->|Hne].
  - rewrite lookup_insert_eq in Hlook. injection Hlook as _ <-.
    destruct m; auto.
  - rewrite lookup_insert_ne in Hlook by done. by eapply Ht.
Qed.

Lemma valid_table_lookup (t : Table) (g c m : Z) :
  valid_table t -> t !! g = Some (c, m) -> exists pm, m = value pm.
Proof.
  intros Ht Hlook. destruct (Ht g c m Hlook) as [->| ->];
    [by exists oldest|by exists newest].
Qed.

Lemma update_valid_table self (g : Z) (a : option TextChannel.t)
    (mode : option PinMode) :
  valid_table (db_connection self) ->
  valid_table (db_connection (update_archive_channel self g a mode).2).
Proof.
  intros Ht.
  destruct (db_connection self !! g) as [[c0 m0]|] eqn:Hg.
  - destruct (valid_table_lookup _ _ _ _ Ht Hg) as [pm ->].
    destruct a as [channel|], mode as [m|].
    + rewrite (update_channel_and_mode_eq _ _ _ _ _ _ Hg). simpl.
      by apply valid_table_insert.
    + rewrite (update_channel_only_eq _ _ _ _ _ Hg). simpl.
      by apply valid_table_insert.
    + rewrite (update_mode_only_eq _ _ _ _ _ Hg). simpl.
      by apply valid_table_insert.
    + done.
  - by rewrite (update_archive_channel_None _ _ _ _ Hg).
Qed.

Lemma invoke_valid_table self (i : Invocation) :
  valid_table (db_connection self) ->
  valid_table (db_connection (invoke self i)).
Proof.
  intros Ht. destruct i as [platform channel|g a m|g a m|g|g]; simpl.
  - by rewrite handler_table.
  - unfold pin_setup. rewrite upsert_archive_channel_eq. simpl.
    by apply valid_table_insert.
  - unfold pin_update.
    pose proof (update_valid_table self g a m Ht) as Hupd.
    destruct a, m; try done;
      by destruct (update_archive_channel _ _ _ _) as [r self'].
  - unfold pin_current.
    pose proof (get_archive_channel_bot self g) as Hbot.
    destruct (get_archive_channel self g) as [r self0].
    simpl in *. by subst.
  - intros g' c' m' Hlook. simpl in Hlook.
    apply lookup_delete_Some in Hlook as [_ Hlook]. by eapply Ht.
Qed.

Lemma run_valid_table (invocations : list Invocation) self :
  valid_table (db_connection self) ->
  valid_table (db_connection (run self invocations)).
Proof.
  revert self. induction invocations as [|i invocations IH]; intros self Ht.
  - done.
  - apply IH. by apply invoke_valid_table.
Qed.

Lemma get_archive_channel_valid self (g : Z) :
  valid_table (db_connection self) ->
  exists location, get_archive_channel self g = (Ok location, self).
Proof.
  intros Ht. destruct (db_connection self !! g) as [[c m]|] eqn:Hg.
  - destruct (valid_table_lookup _ _ _ _ Ht Hg) as [pm ->].
    eexists. by apply get_archive_channel_Some.
  - eexists. by apply get_archive_channel_None.
Qed.

End RunInvariants.

(** X11. Stored modes stay decodable: if every [pin_mode] in the table the
    bot starts with is 1 or 2, then after every sequence of events and
    commands every stored [pin_mode] is still 1 or 2, and looking up any
    guild returns normally (a location or [None]), never [ValueError]. *)
Theorem run_keeps_modes_valid (stored : Table)
    (invocations : list Invocation) (g : Z) :
  valid_table stored ->
  let self := run (PinArchiverBot_init stored) invocations in
  valid_table (db_connection self) /\
  exists location, get_archive_channel self g = (Ok location, self).
Proof.
  intros Ht self.
  assert (Hv : valid_table (db_connection self)).
  { by apply run_valid_table. }
  split; [done|]. by apply get_archive_channel_valid.
Qed.

Lemma run_keeps_modes_valid_witness :
  let self :=
    run (PinArchiverBot_init sample_table)
      [Update 1 (Some (TextChannel.mk 200)) (Some newest);
       PinsUpdate (sample_platform (sample_pins 0)) sample_channel;
       Disable 3] in
  valid_table (db_connection self) /\
  exists location, get_archive_channel self 1 = (Ok location, self).
Proof.
  apply (run_keeps_modes_valid sample_table
           [Update 1 (Some (TextChannel.mk 200)) (Some newest);
            PinsUpdate (sample_platform (sample_pins 0)) sample_channel;
            Disable 3] 1).
  intros g c m Hlook. unfold sample_table in Hlook.
  apply lookup_singleton_Some in Hlook as [_ Hlook].
  injection Hlook as _ <-. by left.
Defined.

(** X12. The two halves of the bot's state are kept apart: a pins event
    never changes the settings table, whatever the platform answers, and
    no command ever changes the guard deque. *)
Theorem events_and_commands_keep_apart (platform : Platform) (self : Bot)
    (channel : Channel.t) (g : Z) (a : TextChannel.t) (m : PinMode)
    (channel' : option TextChannel.t) (mode' : option PinMode) :
  db_connection (on_guild_channel_pins_update platform self channel).1.2
  = db_connection self /\
  _guard_stack (pin_setup self g a m).2 = _guard_stack self /\
  _guard_stack (pin_update self g channel' mode').2 = _guard_stack self /\
  _guard_stack (pin_current self g).2 = _guard_stack self /\
  _guard_stack (pin_disable self g).2 = _guard_stack self.
Proof.
  repeat apply conj.
  - apply handler_table.
  - unfold pin_setup. by rewrite upsert_archive_channel_eq.
  - unfold pin_update, update_archive_channel.
    destruct channel', mode'; simpl; try done;
      by destruct (_query _ _) as [r conn].
  - unfold pin_current.
    pose proof (get_archive_channel_bot self g) as Hbot.
    destruct (get_archive_channel self g) as [r self0].
    simpl in *. by subst.
  - done.
Qed.

(** ** Relocation handler: failures of the platform *)

(** X13. When the pins cannot be fetched for a guild with a row: an
    [AttributeError] or [HTTPException] is logged and the handler returns
    normally after logging the event; any other exception leaves the
    handler.  In both cases nothing is unpinned or sent and the bot is
    unchanged. *)
Theorem pins_fetch_failure (platform : Platform) (self : Bot)
    (channel : Channel.t) (c : Z) (m : PinMode) (e : exn) :
  db_connection self !! Channel.guild_id channel = Some (c, value m) ->
  pins platform channel = Raise e ->
  on_guild_channel_pins_update platform self channel
  = match e with
    | AttributeError | HTTPException =>
        (Ok tt, self, [EvPins channel; EvLogException; EvLogInfo])
    | _ => (Raise e, self, [EvPins channel])
    end.
Proof.
  intros Hrow Hpins. unfold on_guild_channel_pins_update.
  rewrite (get_archive_channel_Some _ _ _ _ Hrow), Hpins.
  by destruct e.
Qed.

Lemma pins_fetch_failure_witness :
  on_guild_channel_pins_update
    (mkPlatform (fun _ => Raise HTTPException) (fun _ _ => None)
       (fun _ => Ok tt) (fun _ _ => Ok tt))
    (mkBot sample_table [7]) sample_channel
  = (Ok tt, mkBot sample_table [7],
     [EvPins sample_channel; EvLogException; EvLogInfo]).
Proof.
  exact (pins_fetch_failure
           (mkPlatform (fun _ => Raise HTTPException) (fun _ _ => None)
              (fun _ => Ok tt) (fun _ _ => Ok tt))
           (mkBot sample_table [7]) sample_channel 100 oldest HTTPException
           eq_refl eq_refl).
Defined.

(** X14. With at least 49 pins fetched, if the stored channel identifier
    does not name a text channel of the guild (unknown, or of another
    kind), the handler stops with [AssertionError] right after the fetch:
    the guard is not consulted, nothing is unpinned or sent, nothing is
    logged, the bot is unchanged. *)
Theorem archive_channel_not_text (platform : Platform) (self : Bot)
    (channel : Channel.t) (c : Z) (m : PinMode)
    (current_pins : list Message.t) :
  db_connection self !! Channel.guild_id channel = Some (c, value m) ->
  pins platform channel = Ok current_pins ->
  (49 <= length current_pins)%nat ->
  (forall a, get_channel platform (Channel.guild_id channel) c
             <> Some (IsTextChannel a)) ->
  on_guild_channel_pins_update platform self channel
  = (Raise AssertionError, self, [EvPins channel]).
Proof.
  intros Hrow Hpins Hlen Hch. unfold on_guild_channel_pins_update.
  rewrite (get_archive_channel_Some _ _ _ _ Hrow), Hpins.
  destruct (Z.ltb_spec (Z.of_nat (length current_pins)) 49); [lia|].
  simpl.
  destruct (get_channel platform (Channel.guild_id channel) c)
    as [[a|]|]; try done.
  by destruct (Hch a).
Qed.

Lemma archive_channel_not_text_witness :
  on_guild_channel_pins_update
    (mkPlatform (fun _ => Ok (sample_pins 0)) (fun _ _ => None)
       (fun _ => Ok tt) (fun _ _ => Ok tt))
    (mkBot sample_table [7]) sample_channel
  = (Raise AssertionError, mkBot sample_table [7], [EvPins sample_channel]).
Proof.
  apply (archive_channel_not_text
           (mkPlatform (fun _ => Ok (sample_pins 0)) (fun _ _ => None)
              (fun _ => Ok tt) (fun _ _ => Ok tt))
           (mkBot sample_table [7]) sample_channel 100 oldest (sample_pins 0));
    [reflexivity | reflexivity | vm_compute; lia | intros a; discriminate].
Defined.

(** ** Relocation handler: after the guard *)

Section AfterGuard.

Implicit Types (platform : Platform) (conn : Table) (stack : list Z)
  (channel : Channel.t) (pin : Message.t) (archive_channel : TextChannel.t).

Lemma handler_through_guard platform conn stack channel archive_channel pin :
  reaches_guard platform conn channel archive_channel pin ->
  (guard stack (Message.id pin)).1 = false ->
  on_guild_channel_pins_update platform (mkBot conn stack) channel
  = finish (mkBot conn stack) [EvPins channel]
      (archive_pin platform (guard stack (Message.id pin)).2
         archive_channel pin).
Proof.
  intros Hreach Hg. rewrite (handler_at_guard _ _ _ _ _ _ Hreach).
  unfold relocate_pin.
  destruct (guard stack (Message.id pin)) as [duplicate stack'].
  simpl in Hg. by subst duplicate.
Qed.

Lemma getitem_last_inv {A : Type} (l : list A) (x : A) :
  getitem l (-1) = Ok x -> last l = Some x.
Proof.
  intros Hget. destruct (last l) as [y|] eqn:Hlast.
  - rewrite (getitem_last _ _ Hlast) in Hget. by injection Hget as ->.
  - apply last_None in Hlast. by subst.
Qed.

Lemma getitem_head_inv {A : Type} (l : list A) (x : A) :
  getitem l 0 = Ok x -> head l = Some x.
Proof.
  intros Hget. destruct l as [|y l]; [done|].
  rewrite (getitem_head (y :: l) y) in Hget by done.
  by injection Hget as ->.
Qed.

Lemma except_relocate_trace (e : exn) stack (trace : list Event) :
  (except_relocate e stack trace).2 = trace
  \/ (except_relocate e stack trace).2 = trace ++ [EvLogException].
Proof. destruct e; auto. Qed.

(** The trace of [archive_pin] always starts with the unpin; a send in it
    comes second, goes to the archive channel, carries the pin's embed and
    follows an unpin that succeeded. *)
Lemma archive_pin_trace platform stack archive_channel pin :
  let trace := (archive_pin platform stack archive_channel pin).2 in
  (trace = [EvUnpin pin] \/ trace = [EvUnpin pin; EvLogException])
  \/ (unpin platform pin = Ok tt /\
      exists tail,
        trace = EvUnpin pin
                :: EvSend archive_channel (create_pin_embed pin) :: tail /\
        (tail = [] \/ tail = [EvLogException])).
Proof.
  unfold archive_pin.
  destruct (unpin platform pin) as [[]|e].
  - right. split; [done|].
    destruct (send platform archive_channel (create_pin_embed pin))
      as [[]|e]; [by eexists; eauto|].
    destruct e; simpl; eexists; eauto.
  - left. destruct e; simpl; auto.
Qed.

End AfterGuard.

(** X15. When the guard lets the candidate through and the unpin fails
    with [HTTPException], no send is attempted: the failure is logged, the
    handler logs the event and returns normally, and the guard keeps what
    the guard block left in it. *)
Theorem unpin_failure_skips_send (platform : Platform) (conn : Table)
    (stack : list Z) (channel : Channel.t) (a : TextChannel.t)
    (pin : Message.t) :
  reaches_guard platform conn channel a pin ->
  (guard stack (Message.id pin)).1 = false ->
  unpin platform pin = Raise HTTPException ->
  on_guild_channel_pins_update platform (mkBot conn stack) channel
  = (Ok tt, mkBot conn (guard stack (Message.id pin)).2,
     [EvPins channel; EvUnpin pin; EvLogException; EvLogInfo]).
Proof.
  intros Hreach Hg Hunpin.
  rewrite (handler_through_guard _ _ _ _ _ _ Hreach Hg).
  unfold archive_pin. by rewrite Hunpin.
Qed.

Lemma unpin_failure_skips_send_witness :
  on_guild_channel_pins_update
    (mkPlatform (fun _ => Ok (sample_pins 0))
       (fun _ c => Some (IsTextChannel (TextChannel.mk c)))
       (fun _ => Raise HTTPException) (fun _ _ => Ok tt))
    (mkBot sample_table []) sample_channel
  = (Ok tt, mkBot sample_table [48],
     [EvPins sample_channel; EvUnpin (Message.mk 48 "" []);
      EvLogException; EvLogInfo]).
Proof.
  apply (unpin_failure_skips_send
           (mkPlatform (fun _ => Ok (sample_pins 0))
              (fun _ c => Some (IsTextChannel (TextChannel.mk c)))
              (fun _ => Raise HTTPException) (fun _ _ => Ok tt))
           sample_table [] sample_channel (TextChannel.mk 100)
           (Message.mk 48 "" []));
    [ exists 100, oldest; eexists; repeat apply conj;
      [reflexivity | reflexivity | vm_compute; lia | reflexivity
      | vm_compute; reflexivity]
    | reflexivity | reflexivity ].
Defined.

(** X16. When the unpin succeeds and the send fails with [HTTPException],
    the handler still returns normally: the message has been unpinned, the
    send was attempted once, the failure is logged, and nothing is undone
    or retried. *)
Theorem send_failure_after_unpin (platform : Platform) (conn : Table)
    (stack : list Z) (channel : Channel.t) (a : TextChannel.t)
    (pin : Message.t) :
  reaches_guard platform conn channel a pin ->
  (guard stack (Message.id pin)).1 = false ->
  unpin platform pin = Ok tt ->
  send platform a (create_pin_embed pin) = Raise HTTPException ->
  on_guild_channel_pins_update platform (mkBot conn stack) channel
  = (Ok tt, mkBot conn (guard stack (Message.id pin)).2,
     [EvPins channel; EvUnpin pin; EvSend a (create_pin_embed pin);
      EvLogException; EvLogInfo]).
Proof.
  intros Hreach Hg Hunpin Hsend.
  rewrite (handler_through_guard _ _ _ _ _ _ Hreach Hg).
  unfold archive_pin. by rewrite Hunpin, Hsend.
Qed.

Lemma send_failure_after_unpin_witness :
  on_guild_channel_pins_update
    (mkPlatform (fun _ => Ok (sample_pins 0))
       (fun _ c => Some (IsTextChannel (TextChannel.mk c)))
       (fun _ => Ok tt) (fun _ _ => Raise HTTPException))
    (mkBot sample_table []) sample_channel
  = (Ok tt, mkBot sample_table [48],
     [EvPins sample_channel; EvUnpin (Message.mk 48 "" []);
      EvSend (TextChannel.mk 100) (create_pin_embed (Message.mk 48 "" []));
      EvLogException; EvLogInfo]).
Proof.
  apply (send_failure_after_unpin
           (mkPlatform (fun _ => Ok (sample_pins 0))
              (fun _ c => Some (IsTextChannel (TextChannel.mk c)))
              (fun _ => Ok tt) (fun _ _ => Raise HTTPException))
           sample_table [] sample_channel (TextChannel.mk 100)
           (Message.mk 48 "" []));
    [ exists 100, oldest; eexists; repeat apply conj;
      [reflexivity | reflexivity | vm_compute; lia | reflexivity
      | vm_compute; reflexivity]
    | reflexivity | reflexivity | reflexivity ].
Defined.

(** X17. When the guard lets the candidate through and both platform
    calls succeed, the handler fetches, unpins the candidate, sends the
    candidate's embed to the stored archive channel, logs the event and
    returns; the table is unchanged. *)
Theorem relocation_succeeds (platform : Platform) (conn : Table)
    (stack : list Z) (channel : Channel.t) (a : TextChannel.t)
    (pin : Message.t) :
  reaches_guard platform conn channel a pin ->
  (guard stack (Message.id pin)).1 = false ->
  unpin platform pin = Ok tt ->
  send platform a (create_pin_embed pin) = Ok tt ->
  on_guild_channel_pins_update platform (mkBot conn stack) channel
  = (Ok tt, mkBot conn (guard stack (Message.id pin)).2,
     [EvPins channel; EvUnpin pin; EvSend a (create_pin_embed pin);
      EvLogInfo]).
Proof.
  intros Hreach Hg Hunpin Hsend.
  rewrite (handler_through_guard _ _ _ _ _ _ Hreach Hg).
  unfold archive_pin. by rewrite Hunpin, Hsend.
Qed.

Lemma relocation_succeeds_witness :
  on_guild_channel_pins_update (sample_platform (sample_pins 0))
    (mkBot sample_table [7]) sample_channel
  = (Ok tt, mkBot sample_table [],
     [EvPins sample_channel; EvUnpin (Message.mk 48 "" []);
      EvSend (TextChannel.mk 100) (create_pin_embed (Message.mk 48 "" []));
      EvLogInfo]).
Proof.
  apply (relocation_succeeds (sample_platform (sample_pins 0))
           sample_table [7] sample_channel (TextChannel.mk 100)
           (Message.mk 48 "" []));
    [ exists 100, oldest; eexists; repeat apply conj;
      [reflexivity | reflexivity | vm_compute; lia | reflexivity
      | vm_compute; reflexivity]
    | reflexivity | reflexivity | reflexivity ].
Defined.

(** ** Relocation handler: what a trace can hold *)

Ltac trace_member H :=
  simpl in H; rewrite ?elem_of_cons, ?elem_of_nil in H; intuition congruence.

Section Traces.

Implicit Types (platform : Platform) (self : Bot) (channel : Channel.t)
  (pin : Message.t).

Lemma get_archive_channel_inv self (g : Z) (location : PinArchiveLocation)
    self0 :
  get_archive_channel self g = (Ok (Some location), self0) ->
  db_connection self !! g
  = Some (channel_id location, value (pin_mode location))
  /\ guild_id location = g.
Proof.
  unfold get_archive_channel, _query, SELECT_BY_GUILD_STATEMENT.
  destruct (db_connection self !! g) as [[c m]|]; simpl; [|done].
  unfold PinMode_of.
  destruct (Z.eqb_spec m 1) as [->|_]; simpl; [by intros [= <- _]|].
  destruct (Z.eqb_spec m 2) as [->|_]; simpl; [by intros [= <- _]|done].
Qed.

Local Ltac quiet_trace :=
  solve
    [ left; unfold finish, except_relocate; simpl;
      repeat first
        [ apply List.Forall_nil
        | apply List.Forall_cons; [unfold quiet; by auto|] ] ].

Lemma handler_trace platform self channel :
  let trace := (on_guild_channel_pins_update platform self channel).2 in
  Forall (quiet channel) trace
  \/ exists a pin stack tail,
       reaches_guard platform (db_connection self) channel a pin /\
       trace = EvPins channel :: (archive_pin platform stack a pin).2 ++ tail /\
       (tail = [] \/ tail = [EvLogInfo]).
Proof.
  unfold on_guild_channel_pins_update.
  destruct (get_archive_channel self (Channel.guild_id channel))
    as [[[location|]|e] self0] eqn:Hget; simpl;
    [|quiet_trace|quiet_trace].
  apply get_archive_channel_inv in Hget as [Hrow Hguild].
  destruct (pins platform channel) as [current_pins|e] eqn:Hpins.
  2:{ destruct e; quiet_trace. }
  destruct (Z.ltb_spec (Z.of_nat (length current_pins)) 49) as [|Hlen]; simpl.
  { quiet_trace. }
  destruct (get_channel platform (Channel.guild_id channel)
              (channel_id location)) as [[a|]|] eqn:Hch; simpl;
    try quiet_trace.
  unfold relocate.
  destruct (select_pin location current_pins) as [pin|e] eqn:Hsel.
  - unfold relocate_pin.
    destruct (guard (_guard_stack self0) (Message.id pin))
      as [[] stack'].
    + quiet_trace.
    + right. exists a, pin, stack'.
      assert (Hreach : reaches_guard platform (db_connection self) channel a pin).
      { exists (channel_id location), (pin_mode location), current_pins.
        destruct location as [g c m]. simpl in *. subst g.
        repeat apply conj; try done. lia. }
      destruct (archive_pin platform stack' a pin) as [[flow stack''] trace].
      unfold finish.
      destruct flow; simpl.
      * exists []. rewrite app_nil_r. auto.
      * exists [EvLogInfo]. auto.
      * exists []. rewrite app_nil_r. auto.
  - destruct e; quiet_trace.
Qed.

Lemma quiet_not_send channel (trace : list Event) (a : TextChannel.t)
    (e : Embed.t) :
  Forall (quiet channel) trace -> EvSend a e ∈ trace -> False.
Proof.
  intros Hq Hin. rewrite Forall_forall in Hq.
  destruct (Hq _ Hin) as [?|[?|?]]; done.
Qed.

Lemma quiet_not_unpin channel (trace : list Event) pin :
  Forall (quiet channel) trace -> EvUnpin pin ∈ trace -> False.
Proof.
  intros Hq Hin. rewrite Forall_forall in Hq.
  destruct (Hq _ Hin) as [?|[?|?]]; done.
Qed.

Lemma reaches_guard_endpoint platform (conn : Table) channel
    (a : TextChannel.t) pin :
  reaches_guard platform conn channel a pin ->
  exists (c : Z) (m : PinMode) (current_pins : list Message.t),
    conn !! Channel.guild_id channel = Some (c, value m) /\
    pins platform channel = Ok current_pins /\
    (49 <= length current_pins)%nat /\
    match m with
    | oldest => last current_pins
    | newest => head current_pins
    end = Some pin.
Proof.
  intros (c & m & current_pins & Hrow & Hpins & Hlen & _ & Hsel).
  exists c, m, current_pins. repeat apply conj; try done.
  unfold select_pin in Hsel. simpl in Hsel. destruct m.
  - by apply getitem_last_inv.
  - by apply getitem_head_inv.
Qed.

End Traces.

(** X18. The handler never sends without having unpinned: whenever its
    trace holds a send, the trace begins with the fetch, the unpin of one
    pin and then that send; the unpin succeeded; the embed sent is that
    pin's; and the destination is the text channel the guild's stored
    channel identifier names. *)
Theorem send_only_after_unpin (platform : Platform) (self : Bot)
    (channel : Channel.t) (a : TextChannel.t) (e : Embed.t) :
  EvSend a e ∈ (on_guild_channel_pins_update platform self channel).2 ->
  exists pin tail,
    (on_guild_channel_pins_update platform self channel).2
    = EvPins channel :: EvUnpin pin :: EvSend a e :: tail /\
    unpin platform pin = Ok tt /\
    e = create_pin_embed pin /\
    reaches_guard platform (db_connection self) channel a pin.
Proof.
  intros Hin.
  destruct (handler_trace platform self channel)
    as [Hq|(a' & pin & stack & tail & Hreach & Htrace & Htail)].
  { by destruct (quiet_not_send _ _ _ _ Hq Hin). }
  rewrite Htrace in Hin |- *.
  destruct (archive_pin_trace platform stack a' pin)
    as [[Hap|Hap]|(Hunpin & tail' & Hap & Htail')]; simpl in Hap;
    rewrite Hap in Hin |- *.
  - destruct Htail as [->| ->]; trace_member Hin.
  - destruct Htail as [->| ->]; trace_member Hin.
  - assert (Heq : a = a' /\ e = create_pin_embed pin).
    { destruct Htail as [->| ->], Htail' as [->| ->]; trace_member Hin. }
    destruct Heq as [-> ->]. exists pin, (tail' ++ tail). by repeat split.
Qed.

Lemma send_only_after_unpin_witness :
  exists pin tail,
    (on_guild_channel_pins_update (sample_platform (sample_pins 0))
       (PinArchiverBot_init sample_table) sample_channel).2
    = EvPins sample_channel :: EvUnpin pin
      :: EvSend (TextChannel.mk 100) (Embed.mk "" None) :: tail /\
    unpin (sample_platform (sample_pins 0)) pin = Ok tt /\
    Embed.mk "" None = create_pin_embed pin /\
    reaches_guard (sample_platform (sample_pins 0))
      (db_connection (PinArchiverBot_init sample_table)) sample_channel
      (TextChannel.mk 100) pin.
Proof.
  apply (send_only_after_unpin (sample_platform (sample_pins 0))
           (PinArchiverBot_init sample_table) sample_channel
           (TextChannel.mk 100) (Embed.mk "" None)).
  vm_compute. do 2 apply list_elem_of_further. apply list_elem_of_here.
Defined.

(** X19. The handler only ever unpins an end of the list it fetched:
    whenever its trace holds an unpin, the guild has a row, at least 49
    pins were fetched, and the unpinned message is the last of them when
    the stored mode is [oldest] and the first when it is [newest]. *)
Theorem unpin_only_list_end (platform : Platform) (self : Bot)
    (channel : Channel.t) (pin : Message.t) :
  EvUnpin pin ∈ (on_guild_channel_pins_update platform self channel).2 ->
  exists (c : Z) (m : PinMode) (current_pins : list Message.t),
    db_connection self !! Channel.guild_id channel = Some (c, value m) /\
    pins platform channel = Ok current_pins /\
    (49 <= length current_pins)%nat /\
    match m with
    | oldest => last current_pins
    | newest => head current_pins
    end = Some pin.
Proof.
  intros Hin.
  destruct (handler_trace platform self channel)
    as [Hq|(a' & pin' & stack & tail & Hreach & Htrace & Htail)].
  { by destruct (quiet_not_unpin _ _ _ Hq Hin). }
  rewrite Htrace in Hin.
  assert (pin = pin') as ->.
  { destruct (archive_pin_trace platform stack a' pin')
      as [[Hap|Hap]|(_ & tail' & Hap & Htail')]; simpl in Hap;
      rewrite Hap in Hin.
    - destruct Htail as [->| ->]; trace_member Hin.
    - destruct Htail as [->| ->]; trace_member Hin.
    - destruct Htail as [->| ->], Htail' as [->| ->]; trace_member Hin. }
  by apply (reaches_guard_endpoint _ _ _ a').
Qed.

Lemma unpin_only_list_end_witness :
  exists (c : Z) (m : PinMode) (current_pins : list Message.t),
    db_connection (PinArchiverBot_init sample_table)
      !! Channel.guild_id sample_channel = Some (c, value m) /\
    pins (sample_platform (sample_pins 0)) sample_channel = Ok current_pins /\
    (49 <= length current_pins)%nat /\
    match m with
    | oldest => last current_pins
    | newest => head current_pins
    end = Some (Message.mk 48 "" []).
Proof.
  apply (unpin_only_list_end (sample_platform (sample_pins 0))
           (PinArchiverBot_init sample_table) sample_channel
           (Message.mk 48 "" [])).
  vm_compute. apply list_elem_of_further. apply list_elem_of_here.
Defined.

(** ** Duplicate-event guard, further *)

Section GuardExtras.

Implicit Types (stack : list Z).

Lemma guard_run_replicate (x : Z) (n : nat) :
  guard_run [] (replicate n x)
  = (map Nat.odd (seq 0 n), if Nat.even n then [] else [x]) /\
  guard_run [x] (replicate n x)
  = (map Nat.even (seq 0 n), if Nat.even n then [x] else []).
Proof.
  induction n as [|n [IH0 IH1]]; [done|].
  assert (Hshift : forall f : nat -> bool,
            map f (seq 1 n) = map (fun k => f (S k)) (seq 0 n)).
  { intros f. by rewrite <- seq_shift, map_map. }
  cbn [replicate guard_run seq map].
  rewrite guard_empty, guard_single, Z.eqb_refl, IH0, IH1, !Hshift.
  rewrite Nat.even_succ, <- (Nat.negb_even n).
  split; (f_equal; [f_equal|by destruct (Nat.even n)]).
  - apply map_ext. intros k. symmetry. apply Nat.odd_succ.
  - apply map_ext. intros k. symmetry. apply Nat.even_succ.
Qed.

End GuardExtras.

(** X20. The guard suppresses a candidate exactly when the deque is not
    empty and its top identifier is the candidate's.  An empty deque
    receives the candidate's identifier; a non-empty one loses its top
    and receives nothing. *)
Theorem guard_suppresses_iff_top (stack : list Z) (pin_id : Z) :
  ((guard stack pin_id).1 = true <-> last stack = Some pin_id) /\
  (guard stack pin_id).2
  = match stack with
    | [] => [pin_id]
    | _ :: _ => removelast stack
    end.
Proof.
  destruct stack as [|z stack'] using rev_ind; [done|].
  rewrite guard_top, last_snoc, removelast_last. simpl. split.
  - destruct (Z.eqb_spec z pin_id) as [->|Hne]; split; try done.
    by intros [= ->].
  - by destruct stack'.
Qed.

(** X21. A burst of events all carrying the same candidate, from the
    empty guard: the guard suppresses every second one only.  The 1st,
    3rd, 5th, ... go on to relocation and the 2nd, 4th, ... are dropped;
    the deque ends empty after an even number of events and holding the
    identifier after an odd number. *)
Theorem guard_suppresses_every_second (x : Z) (n : nat) :
  guard_run [] (replicate n x)
  = (map Nat.odd (seq 0 n), if Nat.even n then [] else [x]).
Proof. apply guard_run_replicate. Qed.

(** ** Process bootstrap *)

Section Bootstrap.

Implicit Types (os : Os) (keyring : Keyring) (s : string).

Lemma truthy_true s : truthy s = true <-> s <> "".
Proof.
  unfold truthy. destruct (String.eqb_spec s ""); simpl; split; done.
Qed.

Lemma truthy_false s : truthy s = false <-> s = "".
Proof.
  unfold truthy. destruct (String.eqb_spec s ""); simpl; split; done.
Qed.

Lemma get_token_after_store os keyring s :
  s <> "" ->
  truthy_opt (environ os !! "PIN_ARCHIVER_TOKEN") = false ->
  _get_token os (_set_keyring_creds os keyring s) = Done s.
Proof.
  intros Hs Henv. unfold _get_token, py_or. rewrite Henv.
  unfold _get_keyring_creds, _set_keyring_creds.
  rewrite lookup_insert_eq. by rewrite (proj2 (truthy_true s) Hs).
Qed.

End Bootstrap.

(** X22. [_get_token] returns a token exactly when that token is not
    empty and is either the value of [PIN_ARCHIVER_TOKEN], or, that
    variable being unset or empty, the keyring's password for the user.
    So a non-empty environment value always wins over the keyring, and an
    empty one falls back to it. *)
Theorem get_token_done_iff (os : Os) (keyring : Keyring) (tok : string) :
  _get_token os keyring = Done tok <->
  tok <> "" /\
  (environ os !! "PIN_ARCHIVER_TOKEN" = Some tok
   \/ (truthy_opt (environ os !! "PIN_ARCHIVER_TOKEN") = false /\
       _get_keyring_creds os keyring = Some tok)).
Proof.
  unfold _get_token, py_or.
  destruct (environ os !! "PIN_ARCHIVER_TOKEN") as [e|] eqn:Henv; simpl.
  - destruct (truthy e) eqn:He.
    + rewrite He. apply truthy_true in He. split.
      * intros [= <-]. auto.
      * intros [_ [[= <-]|[? _]]]; done.
    + destruct (_get_keyring_creds os keyring) as [k|]; simpl.
      * destruct (truthy k) eqn:Hk.
        -- apply truthy_true in Hk. apply truthy_false in He. split.
           ++ intros [= <-]. auto.
           ++ intros [Htok [[= <-]|[_ [= <-]]]]; done.
        -- apply truthy_false in Hk. apply truthy_false in He. split; [done|].
           intros [Htok [[= <-]|[_ [= <-]]]]; done.
      * apply truthy_false in He. split; [done|].
        intros [Htok [[= <-]|[_ ?]]]; done.
  - destruct (_get_keyring_creds os keyring) as [k|]; simpl.
    + destruct (truthy k) eqn:Hk.
      * apply truthy_true in Hk. split.
        -- intros [= <-]. auto.
        -- intros [_ [?|[_ [= <-]]]]; done.
      * apply truthy_false in Hk. split; [done|].
        intros [Htok [?|[_ [= <-]]]]; done.
    + split; [done|]. intros [_ [?|[_ ?]]]; done.
Qed.

(** X23. [_get_token] raises [RuntimeError] exactly when both sources
    are unset or empty: no non-empty [PIN_ARCHIVER_TOKEN] and no
    non-empty keyring password for the user. *)
Theorem get_token_raises_iff (os : Os) (keyring : Keyring) :
  (exists msg, _get_token os keyring = RuntimeError msg) <->
  truthy_opt (environ os !! "PIN_ARCHIVER_TOKEN") = false /\
  truthy_opt (_get_keyring_creds os keyring) = false.
Proof.
  unfold _get_token, py_or.
  destruct (environ os !! "PIN_ARCHIVER_TOKEN") as [e|]; simpl.
  - destruct (truthy e) eqn:He.
    + rewrite He. split; [by intros [msg ?]|by intros [? _]].
    + destruct (_get_keyring_creds os keyring) as [k|]; simpl.
      * destruct (truthy k); split; try done; [by intros [msg ?]|by intros [_ ?]|by eexists].
      * split; [done|by eexists].
  - destruct (_get_keyring_creds os keyring) as [k|]; simpl.
    + destruct (truthy k); split; try done; [by intros [msg ?]|by intros [_ ?]|by eexists].
    + split; [done|by eexists].
Qed.

(** X24. A non-empty token stored through [--setup] or through
    [--set-token-to] is the token a later plain start runs the bot with,
    when [PIN_ARCHIVER_TOKEN] is unset or empty. *)
Theorem stored_token_starts_bot (os : Os) (keyring : Keyring)
    (tok typed : string) :
  tok <> "" ->
  truthy_opt (environ os !! "PIN_ARCHIVER_TOKEN") = false ->
  main (mkArgs true None) os keyring tok
  = (Done SetupRan, _set_keyring_creds os keyring tok) /\
  main (mkArgs false (Some tok)) os keyring typed
  = (Done TokenStored, _set_keyring_creds os keyring tok) /\
  main (mkArgs false None) os (_set_keyring_creds os keyring tok) typed
  = (Done (BotRan tok), _set_keyring_creds os keyring tok).
Proof.
  intros Htok Henv. apply truthy_true in Htok.
  unfold main, run_setup, run_bot. simpl. rewrite Htok.
  repeat apply conj; try done.
  rewrite get_token_after_store; [done|by apply truthy_true|done].
Qed.

Lemma stored_token_starts_bot_witness :
  main (mkArgs true None) (mkOs "bot" ∅) ∅ "abc"
  = (Done SetupRan, _set_keyring_creds (mkOs "bot" ∅) ∅ "abc") /\
  main (mkArgs false (Some "abc")) (mkOs "bot" ∅) ∅ ""
  = (Done TokenStored, _set_keyring_creds (mkOs "bot" ∅) ∅ "abc") /\
  main (mkArgs false None) (mkOs "bot" ∅)
    (_set_keyring_creds (mkOs "bot" ∅) ∅ "abc") ""
  = (Done (BotRan "abc"), _set_keyring_creds (mkOs "bot" ∅) ∅ "abc").
Proof.
  apply (stored_token_starts_bot (mkOs "bot" ∅) ∅ "abc" "");
    [discriminate | reflexivity].
Defined.

(** X25. [main] never stores an empty token, and touches no keyring
    entry but the user's own: whatever the command line, the environment
    and the typed input, the keyring it leaves is either the one it found
    or that one with a non-empty token stored for the user under the
    bot's service name. *)
Theorem main_stores_only_nonempty (args : Args) (os : Os)
    (keyring : Keyring) (typed : string) :
  (main args os keyring typed).2 = keyring
  \/ exists tok,
       tok <> "" /\
       (main args os keyring typed).2
       = <[("discord-pin-archiver", getuser os) := tok]> keyring.
Proof.
  unfold main, run_setup.
  destruct (isetup args).
  - destruct (truthy typed) eqn:Ht; simpl; [|by left].
    right. exists typed. by apply truthy_true in Ht.
  - destruct (token args) as [tok|]; [|by left].
    destruct (truthy tok) eqn:Ht; simpl; [|by left].
    right. exists tok. by apply truthy_true in Ht.
Qed.

(** X26. [get] returns a location exactly when the table has a row for
    that guild whose columns are the location's channel and the value of
    its mode; the location's guild is then the guild asked for, and the
    bot is left as it was. *)
Theorem get_returns_stored_row (self : Bot) (g : Z)
    (location : PinArchiveLocation) :
  get_archive_channel self g = (Ok (Some location), self) <->
  db_connection self !! g
  = Some (channel_id location, value (pin_mode location))
  /\ guild_id location = g.
Proof.
  split.
  - apply get_archive_channel_inv.
  - intros [Hrow <-]. destruct location as [g c m]. simpl in *.
    by apply get_archive_channel_Some.
Qed.
